(** * OEval measurement engine: benchmark runner and reliability monitor

    A shallow embedding of [api/services/benchmarkService.ts] and
    [api/services/reliabilityService.ts], with the part of the storage
    layer they call, and the properties of the engine proved or refuted
    on it.

    Conventions of the embedding.
    - A JavaScript [number] that the code only ever holds as an integer
      (timestamps, elapsed milliseconds, counters, scores) is a [Z] or a
      [nat]; a [number] produced by a division (averages, rates) is an
      exact rational [Q]: the embedding is the real-number reading of the
      double arithmetic.
    - [Math.round] is rounding half up, [Qfloor (x + 1/2)].
    - The outside world is a record of oracles [Env]: the k-th call of
      [Date.now()] (or [new Date()]) returns [clock k], the k-th request
      issued with [fetch] settles as [net k], the k-th storage call throws
      iff [fault k], and when several workers are suspended the k-th turn
      of the event loop resumes the one picked by [sched k].
    - [fault] stands for every reason the database has to reject a
      statement: a lost connection, a violated constraint (the two
      metrics tables reference [applications], whose rows other parts of
      the server delete), a number a column cannot hold. What it rejects
      depends on what it holds, so two runs over different storage
      contents are each given their own [fault].
    - Effectful code is a computation [M A] over a [World], which can
      return, throw, or exhaust the fuel that bounds its loops. *)

From Stdlib Require Import ZArith QArith Qround Qminmax Qabs Lia Lqa.
From Stdlib Require Import DecimalString.
From stdpp Require Import base option list strings gmap.

Local Open Scope Z_scope.

(* ===================================================================== *)
(** ** Numbers *)
(* ===================================================================== *)

(** [Math.round]: the nearest integer, halves going up. *)
Definition Math_round (x : Q) : Z := Qfloor (x + (1 # 2)).

(** [a > b] on numbers. *)
Definition Qgtb (a b : Q) : bool := negb (Qle_bool a b).

(** [a < b] on numbers. *)
Definition Qltb (a b : Q) : bool := Qgtb b a.

(** [n.toString()] for an integer-valued number. *)
Definition toString (n : Z) : string := NilZero.string_of_int (Z.to_int n).

(** [xs.reduce((a, b) => a + b, 0)]. *)
Definition sum (xs : list Z) : Z := fold_left Z.add xs 0.

Definition ofNat (n : nat) : Q := inject_Z (Z.of_nat n).

(** A number is written with at most two decimals. *)
Definition twoDecimals (x : Q) : Prop := exists k : Z, (x == inject_Z k / 100)%Q.

(* ===================================================================== *)
(** ** Samples, tallies and results *)
(* ===================================================================== *)

(** How one request settles: a response (with [response.ok] and
    [response.status]), or a rejection (timeout, DNS failure, refused
    connection), which [await] turns into an exception. *)
Inductive Reply : Type :=
  | Responded (ok : bool) (status : Z)
  | Rejected.

(** The three accumulators every profile declares:
    [responses], [successCount], [failCount]. *)
Record Tally : Type := mkTally {
  responses : list Z;
  successCount : nat;
  failCount : nat
}.

Definition emptyTally : Tally := mkTally [] 0 0.

(** [responses.push(responseTime); successCount++]. *)
Definition hit (responseTime : Z) (t : Tally) : Tally :=
  mkTally (responses t ++ [responseTime]) (S (successCount t)) (failCount t).

(** [failCount++]. *)
Definition miss (t : Tally) : Tally :=
  mkTally (responses t) (successCount t) (S (failCount t)).

(** [if (response.ok) { push; successCount++ } else { failCount++ }]. *)
Definition tally (ok : bool) (responseTime : Z) (t : Tally) : Tally :=
  if ok then hit responseTime t else miss t.

(** One probe outcome as the spec's Sample: the elapsed time and the way
    the request settled. *)
Record Sample : Type := mkSample {
  elapsed : Z;
  reply : Reply
}.

Definition succeeded (s : Sample) : bool :=
  match reply s with
  | Responded ok _ => ok
  | Rejected => false
  end.

(** What the body of every profile's loop does to the accumulators with
    one sample: the [try] branch on a response, the [catch] branch on a
    rejection. *)
Definition record (t : Tally) (s : Sample) : Tally :=
  match reply s with
  | Responded ok _ => tally ok (elapsed s) t
  | Rejected => miss t
  end.

Definition accumulate (samples : list Sample) : Tally :=
  fold_left record samples emptyTally.

Record BenchmarkResult : Type := mkResult {
  averageResponseTime : Q;
  successRate : Q;
  errorRate : Q;
  totalRequests : nat;
  successfulRequests : nat;
  failedRequests : nat
}.

(** The mean of the recorded response times, as a rational. *)
Definition mean (xs : list Z) : Q := (inject_Z (sum xs) / ofNat (length xs))%Q.

(* ===================================================================== *)
(** ** The storage layer ([IStorage], the part the engine calls) *)
(* ===================================================================== *)

(** A [decimal(p, 2)] column ([schema.ts]): of the number whose printed
    form ([toString()]) the code passes, PostgreSQL keeps the nearest
    number with two decimals, halves going away from zero. The number is
    held in lowest terms, so that equal numbers are equal terms. A number
    too large for the precision [p] makes the statement throw; throwing
    is the environment's (see [statement]). *)
Definition decimal2 (x : Q) : Q :=
  Qred ((Z.sgn (Qnum x) * Qfloor (Qabs x * 100 + (1 # 2))) # 100).

(** A row of the [benchmarks] table, with the columns the engine touches.
    The six result columns are set together and are kept as one optional
    [BenchmarkResult]: three decimal columns and three integer ones. *)
Record Benchmark : Type := mkBenchmark {
  applicationId : string;
  status : string;
  startedAt : option Z;
  completedAt : option Z;
  result : option BenchmarkResult
}.

(** [Partial<Benchmark>], the argument of [updateBenchmark]. *)
Record BenchmarkPatch : Type := mkPatch {
  setStatus : option string;
  setStartedAt : option Z;
  setCompletedAt : option Z;
  setResult : option BenchmarkResult
}.

Record InsertPerformanceMetrics : Type := mkPerformance {
  pm_applicationId : string;
  pm_responseTime : Q;
  pm_uptime : Q;
  pm_errorRate : Q;
  pm_performanceScore : Z
}.

Record InsertReliabilityMetrics : Type := mkReliability {
  rm_applicationId : string;
  rm_uptime : string;
  rm_slaCompliance : string;
  rm_outageCount : Z;
  rm_mttr : string
}.

(** What the three decimal columns of a [benchmarks] row hold of a
    result: [average_response_time] is [decimal(10, 2)], [success_rate]
    and [error_rate] are [decimal(5, 2)]. *)
Definition storedResult (r : BenchmarkResult) : BenchmarkResult :=
  {| averageResponseTime := decimal2 (averageResponseTime r);
     successRate := decimal2 (successRate r);
     errorRate := decimal2 (errorRate r);
     totalRequests := totalRequests r;
     successfulRequests := successfulRequests r;
     failedRequests := failedRequests r |}.

(** The row of [performance_metrics] an insert leaves: [response_time]
    is [decimal(10, 2)], [uptime] and [error_rate] are [decimal(5, 2)],
    [performance_score] is an integer. *)
Definition storedPerformance (m : InsertPerformanceMetrics) : InsertPerformanceMetrics :=
  {| pm_applicationId := pm_applicationId m;
     pm_responseTime := decimal2 (pm_responseTime m);
     pm_uptime := decimal2 (pm_uptime m);
     pm_errorRate := decimal2 (pm_errorRate m);
     pm_performanceScore := pm_performanceScore m |}.

(** What the storage holds. *)
Record Storage : Type := mkStorage {
  benchmarks : gmap string Benchmark;
  performanceMetrics : list InsertPerformanceMetrics;
  reliabilityMetrics : list InsertReliabilityMetrics
}.

(** A call made through the storage interface. *)
Inductive StorageCall : Type :=
  | UpdateBenchmark (id : string) (data : BenchmarkPatch)
  | GetBenchmarkById (id : string)
  | CreatePerformanceMetrics (metrics : InsertPerformanceMetrics)
  | CreateReliabilityMetrics (metrics : InsertReliabilityMetrics).

(** A journal entry: the call and whether it threw. *)
Record Entry : Type := mkEntry {
  call : StorageCall;
  threw : bool
}.

(* ===================================================================== *)
(** ** The world and computations over it *)
(* ===================================================================== *)

Record Env : Type := mkEnv {
  clock : nat -> Z;
  net : nat -> Reply;
  sched : nat -> nat;
  fault : nat -> bool
}.

Record World : Type := mkWorld {
  reads : nat;      (** clock readings taken so far *)
  sent : nat;       (** requests issued so far *)
  turns : nat;      (** scheduler choices made so far *)
  calls : nat;      (** storage statements executed so far *)
  db : Storage;
  journal : list Entry;
  monitoringIntervals : gmap string nat;   (** the service's [Map] *)
  timers : gmap nat (string * string);     (** armed interval timers and the arguments of their callback *)
  nextTimer : nat
}.

Definition withReads (n : nat) (w : World) : World :=
  mkWorld n (sent w) (turns w) (calls w) (db w) (journal w) (monitoringIntervals w) (timers w) (nextTimer w).
Definition withSent (n : nat) (w : World) : World :=
  mkWorld (reads w) n (turns w) (calls w) (db w) (journal w) (monitoringIntervals w) (timers w) (nextTimer w).
Definition withTurns (n : nat) (w : World) : World :=
  mkWorld (reads w) (sent w) n (calls w) (db w) (journal w) (monitoringIntervals w) (timers w) (nextTimer w).
Definition withStorage (n : nat) (d : Storage) (j : list Entry) (w : World) : World :=
  mkWorld (reads w) (sent w) (turns w) n d j (monitoringIntervals w) (timers w) (nextTimer w).
Definition withTimers (m : gmap string nat) (t : gmap nat (string * string)) (n : nat) (w : World) : World :=
  mkWorld (reads w) (sent w) (turns w) (calls w) (db w) (journal w) m t n.

(** The world before anything ran, over given storage contents. *)
Definition boot (d : Storage) : World := mkWorld 0 0 0 0 d [] ∅ ∅ 0.

(** How a computation ends: with a value, with an exception, or with its
    fuel exhausted inside a loop. *)
Inductive Res (A : Type) : Type :=
  | Returned (a : A) (w : World)
  | Thrown (w : World)
  | Starved (w : World).
Arguments Returned {A} a w.
Arguments Thrown {A} w.
Arguments Starved {A} w.

Definition M (A : Type) : Type := Env -> World -> Res A.

Definition ret {A : Type} (a : A) : M A := fun _ w => Returned a w.

Definition bind {A B : Type} (m : M A) (k : A -> M B) : M B :=
  fun E w =>
    match m E w with
    | Returned a w' => k a E w'
    | Thrown w' => Thrown w'
    | Starved w' => Starved w'
    end.

Definition throw {A : Type} : M A := fun _ w => Thrown w.

Definition starve {A : Type} : M A := fun _ w => Starved w.

(** [try { body } catch (error) { handler }]. *)
Definition tryCatch {A : Type} (body handler : M A) : M A :=
  fun E w =>
    match body E w with
    | Thrown w' => handler E w'
    | r => r
    end.

Declare Scope engine_scope.
Delimit Scope engine_scope with engine.
Notation "x <- c ;; k" := (bind c (fun x => k))
  (at level 100, c at next level, right associativity) : engine_scope.
Notation "c ;;; k" := (bind c (fun _ => k))
  (at level 100, right associativity) : engine_scope.
Local Open Scope engine_scope.

(** [Date.now()], also the instant of a [new Date()]. *)
Definition dateNow : M Z :=
  fun E w => Returned (clock E (reads w)) (withReads (S (reads w)) w).

(** [fetch(url, ...)]: the request is issued; the value is how its
    promise settles. The URL, headers and timeout of the call decide
    nothing in the code and live in [net]. *)
Definition fetch : M Reply :=
  fun E w => Returned (net E (sent w)) (withSent (S (sent w)) w).

(** [await] on a settled request: a rejection is thrown. *)
Definition await (r : Reply) : M (bool * Z) :=
  match r with
  | Responded ok status => ret (ok, status)
  | Rejected => throw
  end.

(** [await new Promise(resolve => setTimeout(resolve, ms))]: time passes
    only through [clock]. *)
Definition sleep (ms : Q) : M unit := ret tt.

(** [console.error(...)]. *)
Definition console_error : M unit := ret tt.

(** One statement against the database: it throws when the environment
    says so and then changes nothing; otherwise [effect] is applied and
    [value] returned. Either way the call is journalled. Whether the
    database rejects a statement is not computed from the contents kept
    here, which leave out the tables the engine does not touch
    ([applications], [users]): it is the environment's answer, free to
    differ from one storage content to another. *)
Definition statement {A : Type} (c : StorageCall) (effect : Storage -> Storage)
    (value : Storage -> A) : M A :=
  fun E w =>
    if fault E (calls w)
    then Thrown (withStorage (S (calls w)) (db w) (journal w ++ [mkEntry c true]) w)
    else Returned (value (db w))
           (withStorage (S (calls w)) (effect (db w)) (journal w ++ [mkEntry c false]) w).

Module storage.

Definition patch (data : BenchmarkPatch) (b : Benchmark) : Benchmark :=
  {| applicationId := applicationId b;
     status := default (status b) (setStatus data);
     startedAt := match setStartedAt data with Some t => Some t | None => startedAt b end;
     completedAt := match setCompletedAt data with Some t => Some t | None => completedAt b end;
     result := match setResult data with
               | Some r => Some (storedResult r)
               | None => result b
               end |}.

Definition noKeys (data : BenchmarkPatch) : bool :=
  match setStatus data, setStartedAt data, setCompletedAt data, setResult data with
  | None, None, None, None => true
  | _, _, _, _ => false
  end.

(** [getBenchmarkById]: [select ... where id = ?]. *)
Definition getBenchmarkById (id : string) : M (option Benchmark) :=
  statement (GetBenchmarkById id) (fun d => d) (fun d => benchmarks d !! id).

(** [updateBenchmark]: nothing is sent for an empty patch; otherwise
    [update ... set data where id = ?], which changes no row when the id
    is absent. *)
Definition updateBenchmark (id : string) (data : BenchmarkPatch) : M unit :=
  if noKeys data then ret tt
  else statement (UpdateBenchmark id data)
         (fun d => mkStorage (alter (patch data) id (benchmarks d))
                             (performanceMetrics d) (reliabilityMetrics d))
         (fun _ => tt).

(** [createPerformanceMetrics]: one row inserted, its decimal columns
    holding the values passed to two decimals. *)
Definition createPerformanceMetrics (metrics : InsertPerformanceMetrics) : M unit :=
  statement (CreatePerformanceMetrics metrics)
    (fun d => mkStorage (benchmarks d) (performanceMetrics d ++ [storedPerformance metrics])
                (reliabilityMetrics d))
    (fun _ => tt).

(** [createReliabilityMetrics]: one row inserted. The decimal columns
    are given as the strings the monitor passes, which are "0", "1",
    "50", "75", "90" or "100" (see [reliabilityMetricsOf]): numbers the
    columns hold as they are. *)
Definition createReliabilityMetrics (metrics : InsertReliabilityMetrics) : M unit :=
  statement (CreateReliabilityMetrics metrics)
    (fun d => mkStorage (benchmarks d) (performanceMetrics d) (reliabilityMetrics d ++ [metrics]))
    (fun _ => tt).

End storage.

Module BenchmarkService.

(** Lines 127-139 of [runResponseTimeTest]: the average is rounded to an
    integer, the rates to two decimals. *)
Definition aggregateRounded (t : Tally) : BenchmarkResult :=
  let totalRequests := (successCount t + failCount t)%nat in
  let averageResponseTime :=
    if (0 <? length (responses t))%nat
    then inject_Z (Math_round (mean (responses t)))
    else 0%Q in
  {| averageResponseTime := averageResponseTime;
     successRate :=
       if (0 <? totalRequests)%nat
       then (inject_Z (Math_round (ofNat (successCount t) / ofNat totalRequests * 100 * 100)) / 100)%Q
       else 0%Q;
     errorRate :=
       if (0 <? totalRequests)%nat
       then (inject_Z (Math_round (ofNat (failCount t) / ofNat totalRequests * 100 * 100)) / 100)%Q
       else 0%Q;
     totalRequests := totalRequests;
     successfulRequests := successCount t;
     failedRequests := failCount t |}.

(** Lines 186-198 of [runLoadTest], 262-274 of [runStressTest] and
    315-327 of [runReliabilityTest], which are the same text: nothing is
    rounded. *)
Definition aggregateExact (t : Tally) : BenchmarkResult :=
  let totalRequests := (successCount t + failCount t)%nat in
  let averageResponseTime :=
    if (0 <? length (responses t))%nat
    then mean (responses t)
    else 0%Q in
  {| averageResponseTime := averageResponseTime;
     successRate :=
       if (0 <? totalRequests)%nat
       then (ofNat (successCount t) / ofNat totalRequests * 100)%Q
       else 0%Q;
     errorRate :=
       if (0 <? totalRequests)%nat
       then (ofNat (failCount t) / ofNat totalRequests * 100)%Q
       else 0%Q;
     totalRequests := totalRequests;
     successfulRequests := successCount t;
     failedRequests := failCount t |}.

(** [calculatePerformanceScore], lines 330-353. *)
Definition calculatePerformanceScore (result : BenchmarkResult) : Z :=
  let score := 100 in
  let score :=
    if Qgtb (averageResponseTime result) 1000 then score - 30
    else if Qgtb (averageResponseTime result) 500 then score - 20
    else if Qgtb (averageResponseTime result) 200 then score - 10
    else score in
  let score :=
    if Qgtb (errorRate result) 5 then score - 40
    else if Qgtb (errorRate result) 1 then score - 20
    else if Qgtb (errorRate result) (1 # 10) then score - 10
    else score in
  Z.max 0 (Z.min 100 score).

(** *** The latency probe, [runResponseTimeTest] *)

Definition minimumRequests : nat := 5.

(** The [try]/[catch] statement of lines 91-121: one request, its
    bookkeeping and the pause after it. The value is the accumulators and
    [requestCount] after it. *)
Definition probeOnce (t : Tally) (requestCount : nat) : M (Tally * nat) :=
  tryCatch
    (startTime <- dateNow ;;
     r <- fetch ;;
     response <- await r ;;
     after <- dateNow ;;
     let responseTime := after - startTime in
     let requestCount := S requestCount in
     let t := tally response.1 responseTime t in
     let delay := Qmin 200 (Qmax 50 (inject_Z responseTime * (1 # 10))) in
     sleep delay ;;;
     ret (t, requestCount))
    (let t := miss t in
     let requestCount := S requestCount in
     sleep 100 ;;;
     ret (t, requestCount)).

(** The [while] loop of lines 90-125, from its test. [fuel] bounds the
    number of iterations. *)
Fixpoint responseTimeLoop (fuel : nat) (endTime : Z) (t : Tally) (requestCount : nat)
    : M Tally :=
  match fuel with
  | O => starve
  | S fuel =>
      now <- dateNow ;;
      if (now <? endTime) || (requestCount <? minimumRequests)%nat then
        st <- probeOnce t requestCount ;;
        if (100 <? st.2)%nat then ret st.1
        else responseTimeLoop fuel endTime st.1 st.2
      else ret t
  end.

Definition runResponseTimeTest (fuel : nat) (url : string) (duration : Z)
    : M BenchmarkResult :=
  now <- dateNow ;;
  let endTime := now + duration * 1000 in
  t <- responseTimeLoop fuel endTime emptyTally 0 ;;
  ret (aggregateRounded t).

(** *** Workers of the load and stress tests

    A worker is an [async] function; between two [await]s it runs alone.
    A suspended worker waits for its request to settle or for its pause
    to end. *)
Inductive Worker : Type :=
  | AwaitingFetch (startTime : Z) (r : Reply)
  | AwaitingTimer.

(** From the test of a worker's [while] loop to its next [await]: the
    worker leaves the loop ([None]) or issues a request. *)
Definition advance (deadline : Q) : M (option Worker) :=
  now <- dateNow ;;
  if Qltb (inject_Z now) deadline then
    startTime <- dateNow ;;
    r <- fetch ;;
    ret (Some (AwaitingFetch startTime r))
  else ret None.

(** A suspended worker runs to its next [await]. *)
Definition resume (deadline : Q) (wk : Worker) (t : Tally) : M (option Worker * Tally) :=
  match wk with
  | AwaitingFetch startTime r =>
      tryCatch
        (response <- await r ;;
         after <- dateNow ;;
         let responseTime := after - startTime in
         ret (Some AwaitingTimer, tally response.1 responseTime t))
        (ret (Some AwaitingTimer, miss t))
  | AwaitingTimer =>
      wk <- advance deadline ;;
      ret (wk, t)
  end.

(** The scheduler's choice among the suspended workers. *)
Definition pick : M nat :=
  fun E w => Returned (sched E (turns w)) (withTurns (S (turns w)) w).

(** [await Promise.all(promises)]: workers are resumed one at a time, in
    the order the environment settles their promises, until all have
    left their loop. *)
Fixpoint eventLoop (fuel : nat) (deadline : Q) (ws : list Worker) (t : Tally) : M Tally :=
  match ws with
  | [] => ret t
  | _ :: _ =>
      match fuel with
      | O => starve
      | S fuel =>
          k <- pick ;;
          let i := (k mod length ws)%nat in
          match ws !! i with
          | None => ret t
          | Some wk =>
              st <- resume deadline wk t ;;
              match st.1 with
              | Some wk => eventLoop fuel deadline (<[i := wk]> ws) st.2
              | None => eventLoop fuel deadline (delete i ws) st.2
              end
          end
      end
  end.

(** The workers are started one after another, each running up to its
    first [await]. *)
Fixpoint spawn (n : nat) (deadline : Q) : M (list Worker) :=
  match n with
  | O => ret []
  | S n =>
      wk <- advance deadline ;;
      rest <- spawn n deadline ;;
      ret (option_list wk ++ rest)
  end.

Definition workers (fuel : nat) (concurrency : nat) (deadline : Q) (t : Tally) : M Tally :=
  ws <- spawn concurrency deadline ;;
  eventLoop fuel deadline ws t.

(** *** The load test, [runLoadTest] *)

Definition concurrentRequests : nat := 10.

Definition runLoadTest (fuel : nat) (url : string) (duration : Z) : M BenchmarkResult :=
  now <- dateNow ;;
  let endTime := now + duration * 1000 in
  t <- workers fuel concurrentRequests (inject_Z endTime) emptyTally ;;
  ret (aggregateExact t).

(** *** The stress test, [runStressTest] *)

Definition maxConcurrency : nat := 50.

(** The [for (let phase = 0; phase < 3; phase++)] loop, over the phases
    still to run. *)
Fixpoint stressPhases (fuel : nat) (phases : list nat) (testDuration : Z) (t : Tally)
    : M Tally :=
  match phases with
  | [] => ret t
  | phase :: phases =>
      let phaseDuration := (inject_Z testDuration / 3)%Q in
      now <- dateNow ;;
      let phaseEndTime := (inject_Z now + phaseDuration)%Q in
      let concurrency := Nat.min (5 * (phase + 1)) maxConcurrency in
      t <- workers fuel concurrency phaseEndTime t ;;
      stressPhases fuel phases testDuration t
  end.

Definition runStressTest (fuel : nat) (url : string) (duration : Z) : M BenchmarkResult :=
  let testDuration := duration * 1000 in
  startTime <- dateNow ;;
  t <- stressPhases fuel [0; 1; 2]%nat testDuration emptyTally ;;
  ret (aggregateExact t).

(** *** The reliability test, [runReliabilityTest] *)

Definition interval : Q := 5000.

(** The [try]/[catch] statement of lines 287-309. *)
Definition sampleOnce (t : Tally) : M Tally :=
  tryCatch
    (startTime <- dateNow ;;
     r <- fetch ;;
     response <- await r ;;
     after <- dateNow ;;
     let responseTime := after - startTime in
     ret (tally response.1 responseTime t))
    (ret (miss t)).

Fixpoint reliabilityLoop (fuel : nat) (endTime : Z) (t : Tally) : M Tally :=
  match fuel with
  | O => starve
  | S fuel =>
      now <- dateNow ;;
      if now <? endTime then
        t <- sampleOnce t ;;
        sleep interval ;;;
        reliabilityLoop fuel endTime t
      else ret t
  end.

Definition runReliabilityTest (fuel : nat) (url : string) (duration : Z)
    : M BenchmarkResult :=
  now <- dateNow ;;
  let endTime := now + duration * 1000 in
  t <- reliabilityLoop fuel endTime emptyTally ;;
  ret (aggregateExact t).

(** *** [runBenchmark] *)

Definition runBenchmark (fuel : nat) (benchmarkId url type : string) (duration : Z)
    : M unit :=
  tryCatch
    (startedAt <- dateNow ;;
     storage.updateBenchmark benchmarkId
       (mkPatch (Some "running"%string) (Some startedAt) None None) ;;;
     result <-
       (if String.eqb type "response_time" then runResponseTimeTest fuel url duration
        else if String.eqb type "load_test" then runLoadTest fuel url duration
        else if String.eqb type "stress_test" then runStressTest fuel url duration
        else if String.eqb type "reliability_test" then runReliabilityTest fuel url duration
        else throw) ;;
     completedAt <- dateNow ;;
     storage.updateBenchmark benchmarkId
       (mkPatch (Some "completed"%string) None (Some completedAt) (Some result)) ;;;
     benchmark <- storage.getBenchmarkById benchmarkId ;;
     match benchmark with
     | Some benchmark =>
         let performanceScore := calculatePerformanceScore result in
         storage.createPerformanceMetrics
           {| pm_applicationId := applicationId benchmark;
              pm_responseTime := averageResponseTime result;
              pm_uptime := successRate result;
              pm_errorRate := errorRate result;
              pm_performanceScore := performanceScore |}
     | None => ret tt
     end)
    (console_error ;;;
     completedAt <- dateNow ;;
     storage.updateBenchmark benchmarkId
       (mkPatch (Some "failed"%string) None (Some completedAt) None)).

End BenchmarkService.

(* ===================================================================== *)
(** ** The reliability monitor *)
(* ===================================================================== *)

Record UptimeResult : Type := mkUptime {
  uptime : Z;
  responseTime : Z;
  isOnline : bool;
  statusCode : option Z
}.

Module ReliabilityService.

(** [performUptimeCheck], lines 72-102. *)
Definition performUptimeCheck (url : string) : M UptimeResult :=
  tryCatch
    (startTime <- dateNow ;;
     r <- fetch ;;
     response <- await r ;;
     after <- dateNow ;;
     let responseTime := after - startTime in
     let isOnline := response.1 in
     ret {| uptime := if isOnline then 100 else 0;
            responseTime := responseTime;
            isOnline := isOnline;
            statusCode := Some response.2 |})
    (console_error ;;;
     ret {| uptime := 0; responseTime := 0; isOnline := false; statusCode := None |}).

(** [calculateSLACompliance], lines 104-122. *)
Definition calculateSLACompliance (result : UptimeResult) : Z :=
  let compliance := 100 in
  let compliance :=
    if negb (isOnline result) then 0
    else if responseTime result >? 5000 then compliance - 50
    else if responseTime result >? 2000 then compliance - 25
    else if responseTime result >? 1000 then compliance - 10
    else compliance in
  Z.max 0 (Z.min 100 compliance).

(** [calculatePerformanceScore], lines 124-141. *)
Definition calculatePerformanceScore (result : UptimeResult) : Z :=
  if negb (isOnline result) then 0
  else
    let score := 100 in
    let score :=
      if responseTime result >? 3000 then score - 40
      else if responseTime result >? 1000 then score - 20
      else if responseTime result >? 500 then score - 10
      else score in
    Z.max 0 (Z.min 100 score).

(** The record of the [catch] branch of [checkReliability]. *)
Definition failureMetrics (applicationId : string) : InsertReliabilityMetrics :=
  {| rm_applicationId := applicationId;
     rm_uptime := "0";
     rm_slaCompliance := "0";
     rm_outageCount := 1;
     rm_mttr := "1" |}.

(** The record built at lines 41-47 from the result of the check. *)
Definition reliabilityMetricsOf (applicationId : string) (result : UptimeResult)
    : InsertReliabilityMetrics :=
  {| rm_applicationId := applicationId;
     rm_uptime := toString (uptime result);
     rm_slaCompliance := toString (calculateSLACompliance result);
     rm_outageCount := if isOnline result then 0 else 1;
     rm_mttr := toString (if isOnline result then 0 else 1) |}.

(** The record built at lines 50-56. *)
Definition performanceMetricsOf (applicationId : string) (result : UptimeResult)
    : InsertPerformanceMetrics :=
  {| pm_applicationId := applicationId;
     pm_responseTime := inject_Z (responseTime result);
     pm_uptime := inject_Z (uptime result);
     pm_errorRate := if isOnline result then 0 else 100;
     pm_performanceScore := calculatePerformanceScore result |}.

(** [checkReliability], lines 36-70: one tick of the monitor. *)
Definition checkReliability (applicationId url : string) : M unit :=
  tryCatch
    (result <- performUptimeCheck url ;;
     storage.createReliabilityMetrics (reliabilityMetricsOf applicationId result) ;;;
     storage.createPerformanceMetrics (performanceMetricsOf applicationId result))
    (console_error ;;;
     storage.createReliabilityMetrics (failureMetrics applicationId)).

(** [setInterval(callback, 5 * 60 * 1000)], the callback being
    [checkReliability(applicationId, url)]: a new timer is armed. *)
Definition setInterval (applicationId url : string) : M nat :=
  fun _ w =>
    Returned (nextTimer w)
      (withTimers (monitoringIntervals w)
         (<[nextTimer w := (applicationId, url)]> (timers w)) (S (nextTimer w)) w).

Definition clearInterval (handle : nat) : M unit :=
  fun _ w =>
    Returned tt (withTimers (monitoringIntervals w) (delete handle (timers w)) (nextTimer w) w).

(** [stopMonitoring], lines 28-34. *)
Definition stopMonitoring (applicationId : string) : M unit :=
  fun E w =>
    match monitoringIntervals w !! applicationId with
    | Some handle =>
        (clearInterval handle ;;;
         fun _ w => Returned tt
           (withTimers (delete applicationId (monitoringIntervals w)) (timers w) (nextTimer w) w)) E w
    | None => Returned tt w
    end.

(** [startMonitoring], lines 13-26. *)
Definition startMonitoring (applicationId url : string) : M unit :=
  stopMonitoring applicationId ;;;
  handle <- setInterval applicationId url ;;
  (fun _ w => Returned tt
     (withTimers (<[applicationId := handle]> (monitoringIntervals w)) (timers w) (nextTimer w) w)) ;;;
  checkReliability applicationId url.

(** A timer fires: its callback runs if the timer is still armed. *)
Definition fire (handle : nat) : M unit :=
  fun E w =>
    match timers w !! handle with
    | Some (applicationId, url) => checkReliability applicationId url E w
    | None => Returned tt w
    end.

End ReliabilityService.

(* ===================================================================== *)
(** ** Vocabulary of the statements *)
(* ===================================================================== *)

(** The four profiles [runBenchmark] dispatches on. *)
Inductive Profile : Type := ResponseTime | LoadTest | StressTest | ReliabilityTest.

Definition typeOf (p : Profile) : string :=
  match p with
  | ResponseTime => "response_time"
  | LoadTest => "load_test"
  | StressTest => "stress_test"
  | ReliabilityTest => "reliability_test"
  end.

(** The function [runBenchmark] calls for a profile. *)
Definition run (p : Profile) : nat -> string -> Z -> M BenchmarkResult :=
  match p with
  | ResponseTime => BenchmarkService.runResponseTimeTest
  | LoadTest => BenchmarkService.runLoadTest
  | StressTest => BenchmarkService.runStressTest
  | ReliabilityTest => BenchmarkService.runReliabilityTest
  end.

(** The aggregation at the end of that function. *)
Definition aggregate (p : Profile) : Tally -> BenchmarkResult :=
  match p with
  | ResponseTime => BenchmarkService.aggregateRounded
  | _ => BenchmarkService.aggregateExact
  end.

(** The value a computation returned, if it returned. *)
Definition outcome {A : Type} (r : Res A) : option A :=
  match r with
  | Returned a _ => Some a
  | _ => None
  end.

(** The world a computation left behind. *)
Definition worldOf {A : Type} (r : Res A) : World :=
  match r with
  | Returned _ w | Thrown w | Starved w => w
  end.

(** The elapsed times of the successful samples. *)
Definition latencies (samples : list Sample) : list Z :=
  map elapsed (filter (fun s => succeeded s = true) samples).

(** The samples that failed. *)
Definition failures (samples : list Sample) : list Sample :=
  filter (fun s => succeeded s = false) samples.

(** [t'] is [t] after some more samples were recorded. *)
Definition extends (t t' : Tally) : Prop := exists ss, t' = fold_left record ss t.

(** The mean of the elapsed times over the successful samples, 0 when
    there is none. *)
Definition meanLatency (samples : list Sample) : Q :=
  match latencies samples with
  | [] => 0%Q
  | xs => mean xs
  end.

(** The calls a computation issued from world [w] on. *)
Definition issued {A : Type} (w : World) (r : Res A) : list Entry :=
  drop (length (journal w)) (journal (worldOf r)).

(** The rows a computation added to the two metrics tables. *)
Definition newReliability {A : Type} (w : World) (r : Res A) : list InsertReliabilityMetrics :=
  drop (length (reliabilityMetrics (db w))) (reliabilityMetrics (db (worldOf r))).

Definition newPerformance {A : Type} (w : World) (r : Res A) : list InsertPerformanceMetrics :=
  drop (length (performanceMetrics (db w))) (performanceMetrics (db (worldOf r))).

(** The statuses written to a campaign, in order: those of the
    [updateBenchmark] calls on it that did not throw. *)
Definition statusWrites (id : string) (j : list Entry) : list string :=
  omap (fun e =>
          match call e with
          | UpdateBenchmark id' data =>
              if threw e then None
              else if String.eqb id' id then setStatus data else None
          | _ => None
          end) j.

Definition terminal (s : string) : bool :=
  String.eqb s "completed" || String.eqb s "failed".

(** The same world over other storage contents. *)
Definition over (d : Storage) (w : World) : World :=
  withStorage (calls w) d (journal w) w.

(** A target that answers every request with 200; each request takes
    20 ms and each pause 50 ms. The first reading, at time 0, is the one
    that fixes the deadline. *)
Definition steadyClock (k : nat) : Z :=
  match k with
  | O => 0
  | S j => 70 * Z.of_nat (j / 3) + (if (j mod 3 =? 2)%nat then 20 else 0)
  end.

Definition steady : Env :=
  mkEnv steadyClock (fun _ => Responded true 200) (fun k => k) (fun _ => false).

(** A target that refuses every connection, 50 ms between readings. *)
Definition refusing : Env :=
  mkEnv (fun k => 50 * Z.of_nat k) (fun _ => Rejected) (fun k => k) (fun _ => false).

(** [E], with the storage statements numbered in [ks] throwing. *)
Definition failing (ks : list nat) (E : Env) : Env :=
  mkEnv (clock E) (net E) (sched E) (fun k => bool_decide (k ∈ ks)).

Definition noStorage : Storage := mkStorage ∅ [] [].

(** A storage holding one campaign, created for application [app1]. *)
Definition oneCampaign : Storage :=
  mkStorage {[ "b1"%string := mkBenchmark "app1" "pending" None None None ]} [] [].

(** Two worlds that differ at most in what the storage holds, the two
    contents being related by [P]. *)
Definition alike (P : Storage -> Storage -> Prop) (w1 w2 : World) : Prop :=
  w2 = over (db w2) w1 /\ P (db w1) (db w2).

(** Two runs that ended the same way, with the same value, in alike
    worlds. *)
Definition agree {A : Type} (P : Storage -> Storage -> Prop) (r1 r2 : Res A) : Prop :=
  match r1, r2 with
  | Returned a w1, Returned b w2 => a = b /\ alike P w1 w2
  | Thrown w1, Thrown w2 => alike P w1 w2
  | Starved w1, Starved w2 => alike P w1 w2
  | _, _ => False
  end.

(** A computation that cannot tell alike worlds apart. *)
Definition blind {A : Type} (P : Storage -> Storage -> Prop) (m : M A) : Prop :=
  forall E w1 w2, alike P w1 w2 -> agree P (m E w1) (m E w2).








(** A computation that leaves the storage and its journal alone. *)
Definition quiet {A : Type} (m : M A) : Prop :=
  forall E w,
    journal (worldOf (m E w)) = journal w /\
    calls (worldOf (m E w)) = calls w /\
    db (worldOf (m E w)) = db w.

(** The requests counted so far. *)
Definition counted (t : Tally) : nat := (successCount t + failCount t)%nat.

(** The workers whose request is in flight. *)
Definition awaitsFetch (wk : BenchmarkService.Worker) : bool :=
  match wk with
  | BenchmarkService.AwaitingFetch _ _ => true
  | BenchmarkService.AwaitingTimer => false
  end.

Definition inFlight (ws : list BenchmarkService.Worker) : nat :=
  length (filter (fun wk => awaitsFetch wk = true) ws).

(** A clock that never goes back. *)
Definition monotone (E : Env) : Prop :=
  forall i j, (i <= j)%nat -> clock E i <= clock E j.

(** A clock that passes every instant, sooner or later. *)
Definition unbounded (E : Env) : Prop :=
  forall T : Z, exists K : nat, forall k, (K <= k)%nat -> T <= clock E k.

(** The service's map and the armed timers agree: every armed timer is
    the one registered for its application, every registered handle is an
    armed timer of that application, and no handle is armed before it is
    handed out. *)
Definition tidy (w : World) : Prop :=
  (forall h a u, timers w !! h = Some (a, u) -> monitoringIntervals w !! a = Some h) /\
  (forall a h, monitoringIntervals w !! a = Some h -> exists u, timers w !! h = Some (a, u)) /\
  (forall h, (nextTimer w <= h)%nat -> timers w !! h = None).

(** The percentage [k] is of [n], 0 when [n] is 0. *)
Definition percentage (k n : nat) : Q :=
  if (0 <? n)%nat then (ofNat k / ofNat n * 100)%Q else 0%Q.

(** [y] is [x] rounded to a multiple of [unit], a half going up: the one
    multiple of [unit] in the interval from [x - unit / 2], excluded, to
    [x + unit / 2], included. *)
Definition roundedTo (unit x y : Q) : Prop :=
  (exists k : Z, y == inject_Z k * unit)%Q /\
  (x - unit / 2 < y)%Q /\ (y <= x + unit / 2)%Q.

(** A target that answers the first request and refuses the others; the
    deadline of a campaign of one second passes after the seventh
    reading of the clock, that is, when three workers have issued their
    request. *)
Definition thirds : Env :=
  mkEnv (fun k => if (k <? 7)%nat then 0 else 5000)
        (fun k => match k with O => Responded true 200 | _ => Rejected end)
        (fun k => k) (fun _ => false).

(** A target that answers every request with 200, the first after 1 ms
    and the others after 2 ms. *)
Definition hastening : Env :=
  mkEnv (fun k => if (k <? 4)%nat then Z.of_nat k else 2 * Z.of_nat k)
        (fun _ => Responded true 200) (fun k => k) (fun _ => false).

(** [E], with the database rejecting the statements [f] says. *)
Definition answering (f : nat -> bool) (E : Env) : Env :=
  mkEnv (clock E) (net E) (sched E) f.

(** A computation that journals its storage calls in step with the
    statement counter, each with the outcome the environment gives it,
    and that asks the environment for the outcome of no other
    statement. *)
Definition local {A : Type} (m : M A) : Prop :=
  forall E w,
    exists es,
      journal (worldOf (m E w)) = journal w ++ es /\
      calls (worldOf (m E w)) = (calls w + length es)%nat /\
      map threw es = map (fault E) (seq (calls w) (length es)) /\
      forall f,
        (forall k, (calls w <= k < calls w + length es)%nat -> f k = fault E k) ->
        m (answering f E) w = m E w.



(* ===================================================================== *)
(** ** Properties *)
(* ===================================================================== *)

Import BenchmarkService.

(** *** What the accumulators hold *)

Section Accumulation.

Lemma record_responses t s :
  responses (record t s) = responses t ++ (if succeeded s then [elapsed s] else []).
Proof.
  unfold record, succeeded. destruct (reply s) as [[|] st|]; simpl; auto using app_nil_r.
  all: now rewrite app_nil_r.
Qed.

Lemma record_successCount t s :
  successCount (record t s) = (successCount t + (if succeeded s then 1 else 0))%nat.
Proof.
  unfold record, succeeded. destruct (reply s) as [[|] st|]; simpl; lia.
Qed.

Lemma record_failCount t s :
  failCount (record t s) = (failCount t + (if succeeded s then 0 else 1))%nat.
Proof.
  unfold record, succeeded. destruct (reply s) as [[|] st|]; simpl; lia.
Qed.

Lemma fold_record samples : forall t,
  responses (fold_left record samples t) = responses t ++ latencies samples /\
  successCount (fold_left record samples t) = (successCount t + length (latencies samples))%nat /\
  failCount (fold_left record samples t) = (failCount t + length (failures samples))%nat.
Proof.
  induction samples as [|s samples IH]; intros t; simpl.
  - unfold latencies, failures. simpl. rewrite app_nil_r. repeat split; lia.
  - destruct (IH (record t s)) as (Hr & Hs & Hf).
    rewrite Hr, Hs, Hf, record_responses, record_successCount, record_failCount.
    unfold latencies, failures. rewrite !filter_cons.
    destruct (succeeded s) eqn:Hok; repeat case_decide; try congruence; simpl.
    + rewrite <- app_assoc. simpl. repeat split; try reflexivity; lia.
    + rewrite app_nil_r. repeat split; try reflexivity; lia.
Qed.

Lemma accumulate_responses samples : responses (accumulate samples) = latencies samples.
Proof. unfold accumulate. now destruct (fold_record samples emptyTally) as (-> & _). Qed.

Lemma accumulate_successCount samples :
  successCount (accumulate samples) = length (latencies samples).
Proof. unfold accumulate. now destruct (fold_record samples emptyTally) as (_ & -> & _). Qed.

Lemma accumulate_failCount samples :
  failCount (accumulate samples) = length (failures samples).
Proof. unfold accumulate. now destruct (fold_record samples emptyTally) as (_ & _ & ->). Qed.

Lemma latencies_failures_length samples :
  (length (latencies samples) + length (failures samples))%nat = length samples.
Proof.
  unfold latencies, failures. rewrite length_map.
  induction samples as [|s samples IH]; [reflexivity|].
  rewrite !filter_cons.
  destruct (succeeded s); repeat case_decide; try congruence; simpl in *; lia.
Qed.

End Accumulation.

Section Rates.

Lemma ofNat_pos n : (0 < n)%nat -> (0 < ofNat n)%Q.
Proof.
  intros H. unfold ofNat. change 0%Q with (inject_Z 0). rewrite <- Zlt_Qlt. lia.
Qed.

Lemma ofNat_add a b : (ofNat (a + b) == ofNat a + ofNat b)%Q.
Proof. unfold ofNat. rewrite Nat2Z.inj_add, inject_Z_plus. reflexivity. Qed.

Lemma Math_round_bounds x :
  (x - (1 # 2) < inject_Z (Math_round x) /\ inject_Z (Math_round x) <= x + (1 # 2))%Q.
Proof.
  unfold Math_round. split.
  - pose proof (Qlt_floor (x + (1 # 2))) as H.
    rewrite inject_Z_plus in H. change (inject_Z 1) with 1%Q in H. lra.
  - apply Qfloor_le.
Qed.

Lemma Math_round_Z z : Math_round (inject_Z z) = z.
Proof.
  unfold Math_round.
  apply Z.le_antisymm.
  - pose proof (Qfloor_le (inject_Z z + (1 # 2))) as H.
    assert (inject_Z (Qfloor (inject_Z z + (1 # 2))) < inject_Z (z + 1))%Q as H'.
    { rewrite inject_Z_plus. change (inject_Z 1) with 1%Q. lra. }
    rewrite <- Zlt_Qlt in H'. lia.
  - rewrite <- (Qfloor_Z z) at 1. apply Qfloor_resp_le. lra.
Qed.

Lemma shares_exact s f :
  (0 < s + f)%nat ->
  (ofNat s / ofNat (s + f) * 100 + ofNat f / ofNat (s + f) * 100 == 100)%Q.
Proof.
  intros H. pose proof (ofNat_pos _ H) as Hp. rewrite ofNat_add in *.
  field. lra.
Qed.

End Rates.

(** *** What a decimal column holds *)

Section Decimals.

Lemma Qred_inject_Z z : Qred (inject_Z z) = inject_Z z.
Proof.
  unfold Qred, inject_Z.
  pose proof (Z.ggcd_gcd z 1) as Hg. pose proof (Z.ggcd_correct_divisors z 1) as Hd.
  destruct (Z.ggcd z 1) as (g & a & b). simpl in *.
  rewrite Z.gcd_1_r in Hg. subst g. destruct Hd as [Ha Hb].
  assert (a = z) as -> by lia. assert (b = 1) as -> by lia. reflexivity.
Qed.

(** The integer [decimal2] takes the hundredth part of. *)
Lemma decimal2_correct x :
  (decimal2 x == inject_Z (Z.sgn (Qnum x) * Math_round (Qabs x * 100)) / 100)%Q.
Proof.
  unfold decimal2, Math_round. rewrite Qred_correct.
  unfold Qdiv, Qeq, inject_Z, Qinv, Qmult. simpl. lia.
Qed.

Lemma decimal2_Z z : decimal2 (inject_Z z) = inject_Z z.
Proof.
  unfold decimal2.
  assert (Qfloor (Qabs (inject_Z z) * 100 + (1 # 2)) = Z.abs z * 100) as ->.
  { rewrite <- (Math_round_Z (Z.abs z * 100)). unfold Math_round.
    apply Qfloor_comp. rewrite inject_Z_mult. reflexivity. }
  change (Qnum (inject_Z z)) with z.
  rewrite <- (Qred_inject_Z z). apply Qred_complete.
  unfold Qeq, inject_Z. simpl. lia.
Qed.

Lemma decimal2_twoDecimals x : twoDecimals (decimal2 x).
Proof. eexists. apply decimal2_correct. Qed.

Lemma Qabs_sgn x : (inject_Z (Z.sgn (Qnum x)) * Qabs x == x)%Q.
Proof.
  destruct x as [n d]. unfold Qabs, Qeq, Qmult, inject_Z. simpl. lia.
Qed.

(** [decimal2 x] is within half a hundredth of [x]. *)
Lemma decimal2_near x : (Qabs (decimal2 x - x) <= 1 # 200)%Q.
Proof.
  rewrite decimal2_correct.
  pose proof (Math_round_bounds (Qabs x * 100)) as [Hl Hu].
  pose proof (Qabs_sgn x) as Hs.
  set (r := inject_Z (Math_round (Qabs x * 100))) in *.
  rewrite inject_Z_mult. fold r.
  apply Qabs_Qle_condition.
  clearbody r.
  destruct (Z.sgn_spec (Qnum x)) as [[Hx Hg] | [[Hx Hg] | [Hx Hg]]]; rewrite Hg in *;
    unfold inject_Z in *; try change (Qmake (Z.opp 1) 1) with (Qopp 1) in *;
    split; unfold Qdiv; change (/ 100)%Q with (1 # 100)%Q; lra.
Qed.

(** A number with two decimals is kept as it is. *)
Lemma decimal2_fixes x : twoDecimals x -> (decimal2 x == x)%Q.
Proof.
  intros [k Hk]. rewrite decimal2_correct.
  assert (Qabs x * 100 == inject_Z (Z.abs k))%Q as Ha.
  { rewrite (Qabs_wd _ _ Hk). unfold Qdiv. rewrite Qabs_Qmult.
    change (Qabs (/ 100)) with (1 # 100)%Q.
    change (Qabs (inject_Z k)) with (inject_Z (Z.abs k)). field. }
  assert (Math_round (Qabs x * 100) = Z.abs k) as ->.
  { rewrite <- (Math_round_Z (Z.abs k)). unfold Math_round. apply Qfloor_comp.
    now rewrite Ha. }
  assert (Z.sgn (Qnum x) = Z.sgn k) as ->.
  { destruct x as [n d]. unfold Qeq, Qdiv, Qmult, Qinv, inject_Z in Hk. simpl in *.
    nia. }
  rewrite Hk. replace (Z.sgn k * Z.abs k) with k by lia. reflexivity.
Qed.

End Decimals.

(** *** The loops of the four profiles *)

Section Loops.

Lemma extends_refl t : extends t t.
Proof. now exists []. Qed.

Lemma extends_trans t1 t2 t3 : extends t1 t2 -> extends t2 t3 -> extends t1 t3.
Proof.
  intros [ss1 ->] [ss2 ->]. exists (ss1 ++ ss2). now rewrite fold_left_app.
Qed.

Lemma extends_tally ok rt st t : tally ok rt t = record t (mkSample rt (Responded ok st)).
Proof. reflexivity. Qed.

Lemma extends_miss t : miss t = record t (mkSample 0 Rejected).
Proof. reflexivity. Qed.

Lemma probeOnce_returns t rc E w :
  exists s w', probeOnce t rc E w = Returned (record t s, S rc) w'.
Proof.
  unfold probeOnce, tryCatch, bind, dateNow, fetch. simpl.
  destruct (net E (sent w)) as [ok st|]; simpl.
  - eexists (mkSample _ (Responded ok st)), _. reflexivity.
  - eexists (mkSample 0 Rejected), _. reflexivity.
Qed.

Lemma responseTimeLoop_spec fuel : forall endTime t rc E w,
  (rc <= 100)%nat ->
  match responseTimeLoop fuel endTime t rc E w with
  | Returned t' _ =>
      exists ss, t' = fold_left record ss t /\
                 (minimumRequests <= rc + length ss <= 101)%nat
  | Thrown _ => False
  | Starved _ => (fuel + rc < 101)%nat
  end.
Proof.
  induction fuel as [|fuel IH]; intros endTime t rc E w Hrc.
  - simpl. lia.
  - simpl. unfold bind at 1. unfold dateNow at 1.
    destruct ((clock E (reads w) <? endTime) || (rc <? minimumRequests)%nat) eqn:Hc.
    + unfold bind at 1.
      destruct (probeOnce_returns t rc E (withReads (S (reads w)) w)) as (s & w' & ->).
      simpl. destruct (100 <? S rc)%nat eqn:Hb.
      * unfold ret. exists [s]. split; [reflexivity|].
        apply Nat.ltb_lt in Hb. unfold minimumRequests. simpl. lia.
      * apply Nat.ltb_ge in Hb.
        specialize (IH endTime (record t s) (S rc) E w').
        destruct (responseTimeLoop fuel endTime (record t s) (S rc) E w').
        -- destruct IH as (ss & -> & Hb'); [lia|]. exists (s :: ss). split; [reflexivity|].
           simpl. lia.
        -- apply IH. lia.
        -- assert (fuel + S rc < 101)%nat by (apply IH; lia). lia.
    + unfold ret. exists []. split; [reflexivity|].
      apply orb_false_iff in Hc as [_ Hc]. apply Nat.ltb_ge in Hc. simpl. lia.
Qed.

Lemma sampleOnce_returns t E w :
  exists s w', sampleOnce t E w = Returned (record t s) w'.
Proof.
  unfold sampleOnce, tryCatch, bind, dateNow, fetch. simpl.
  destruct (net E (sent w)) as [ok st|]; simpl.
  - eexists (mkSample _ (Responded ok st)), _. reflexivity.
  - eexists (mkSample 0 Rejected), _. reflexivity.
Qed.

Lemma reliabilityLoop_spec fuel : forall endTime t E w,
  match reliabilityLoop fuel endTime t E w with
  | Returned t' _ => extends t t'
  | Thrown _ => False
  | Starved _ => True
  end.
Proof.
  induction fuel as [|fuel IH]; intros endTime t E w; simpl; [exact I|].
  unfold bind at 1. unfold dateNow at 1.
  destruct (clock E (reads w) <? endTime).
  - unfold bind at 1.
    destruct (sampleOnce_returns t E (withReads (S (reads w)) w)) as (s & w' & ->).
    unfold bind, sleep, ret. simpl.
    specialize (IH endTime (record t s) E w').
    destruct (reliabilityLoop fuel endTime (record t s) E w'); auto.
    eapply extends_trans; [|exact IH]. now exists [s].
  - apply extends_refl.
Qed.

Lemma advance_returns deadline E w :
  exists wk w', advance deadline E w = Returned wk w'.
Proof.
  unfold advance, bind, dateNow, fetch, ret. simpl.
  destruct (Qltb _ _); eauto.
Qed.

Lemma resume_returns deadline wk t E w :
  exists wk' t' w', resume deadline wk t E w = Returned (wk', t') w' /\ extends t t'.
Proof.
  destruct wk as [startTime [ok st|]|]; simpl.
  - unfold tryCatch, bind, await, ret, dateNow. simpl.
    do 3 eexists. split; [reflexivity|].
    exists [mkSample (clock E (reads w) - startTime) (Responded ok st)]. reflexivity.
  - unfold tryCatch, bind, await, throw, ret. simpl.
    do 3 eexists. split; [reflexivity|]. exists [mkSample 0 Rejected]. reflexivity.
  - unfold bind. destruct (advance_returns deadline E w) as (wk & w' & ->).
    unfold ret. do 3 eexists. split; [reflexivity|]. apply extends_refl.
Qed.

Lemma eventLoop_spec fuel : forall deadline ws t E w,
  match eventLoop fuel deadline ws t E w with
  | Returned t' _ => extends t t'
  | Thrown _ => False
  | Starved _ => True
  end.
Proof.
  induction fuel as [|fuel IH]; intros deadline ws t E w.
  - destruct ws; simpl; [apply extends_refl | exact I].
  - destruct ws as [|wk0 ws]; [apply extends_refl|].
    cbn [eventLoop]. unfold bind at 1. unfold pick at 1.
    set (i := (sched E (turns w) mod length (wk0 :: ws))%nat).
    destruct ((wk0 :: ws) !! i) as [wk|]; [|apply extends_refl].
    unfold bind at 1.
    destruct (resume_returns deadline wk t E (withTurns (S (turns w)) w))
      as (wk' & t' & w' & -> & Hext).
    simpl. destruct wk' as [wk'|].
    + specialize (IH deadline (<[i:=wk']> (wk0 :: ws)) t' E w').
      destruct (eventLoop fuel deadline _ t' E w'); auto.
      eapply extends_trans; eauto.
    + specialize (IH deadline (delete i (wk0 :: ws)) t' E w').
      destruct (eventLoop fuel deadline _ t' E w'); auto.
      eapply extends_trans; eauto.
Qed.

Lemma spawn_returns n : forall deadline E w,
  exists ws w', spawn n deadline E w = Returned ws w'.
Proof.
  induction n as [|n IH]; intros deadline E w; simpl.
  - unfold ret. eauto.
  - unfold bind at 1. destruct (advance_returns deadline E w) as (wk & w' & ->).
    unfold bind at 1. destruct (IH deadline E w') as (ws & w'' & ->).
    unfold ret. eauto.
Qed.

Lemma workers_spec fuel n deadline t E w :
  match workers fuel n deadline t E w with
  | Returned t' _ => extends t t'
  | Thrown _ => False
  | Starved _ => True
  end.
Proof.
  unfold workers, bind. destruct (spawn_returns n deadline E w) as (ws & w' & ->).
  apply eventLoop_spec.
Qed.

Lemma stressPhases_spec fuel phases : forall testDuration t E w,
  match stressPhases fuel phases testDuration t E w with
  | Returned t' _ => extends t t'
  | Thrown _ => False
  | Starved _ => True
  end.
Proof.
  induction phases as [|phase phases IH]; intros testDuration t E w; simpl.
  - apply extends_refl.
  - unfold bind at 1. unfold dateNow at 1. unfold bind at 1.
    match goal with |- context [workers ?f ?n ?d ?t ?E ?w] =>
      pose proof (workers_spec f n d t E w) as Hw;
      destruct (workers f n d t E w) as [t1 w1| |] end; auto.
    specialize (IH testDuration t1 E w1).
    destruct (stressPhases fuel phases testDuration t1 E w1); auto.
    eapply extends_trans; eauto.
Qed.

(** Whatever a profile returns is the aggregation of the samples it took;
    a profile never throws. *)
Lemma run_spec p fuel url duration E w :
  match run p fuel url duration E w with
  | Returned r _ => exists samples, r = aggregate p (accumulate samples)
  | Thrown _ => False
  | Starved _ => True
  end.
Proof.
  destruct p; simpl.
  - unfold runResponseTimeTest, bind, dateNow.
    match goal with |- context [responseTimeLoop ?f ?e ?t ?rc ?E ?w] =>
      pose proof (responseTimeLoop_spec f e t rc E w ltac:(lia)) as H;
      destruct (responseTimeLoop f e t rc E w) end; auto.
    destruct H as (ss & -> & _). unfold ret. now exists ss.
  - unfold runLoadTest, bind, dateNow.
    match goal with |- context [workers ?f ?n ?d ?t ?E ?w] =>
      pose proof (workers_spec f n d t E w) as H;
      destruct (workers f n d t E w) end; auto.
    destruct H as (ss & ->). unfold ret. now exists ss.
  - unfold runStressTest, bind, dateNow.
    match goal with |- context [stressPhases ?f ?n ?d ?t ?E ?w] =>
      pose proof (stressPhases_spec f n d t E w) as H;
      destruct (stressPhases f n d t E w) end; auto.
    destruct H as (ss & ->). unfold ret. now exists ss.
  - unfold runReliabilityTest, bind, dateNow.
    match goal with |- context [reliabilityLoop ?f ?e ?t ?E ?w] =>
      pose proof (reliabilityLoop_spec f e t E w) as H;
      destruct (reliabilityLoop f e t E w) end; auto.
    destruct H as (ss & ->). unfold ret. now exists ss.
Qed.

End Loops.

(** *** Counts and rates of a result *)

Section Results.

Lemma Qgtb_true a b : Qgtb a b = true <-> (b < a)%Q.
Proof.
  unfold Qgtb. rewrite negb_true_iff. split; intros H.
  - apply Qnot_le_lt. intros Hle. apply Qle_bool_iff in Hle. congruence.
  - destruct (Qle_bool a b) eqn:Hle; [|reflexivity].
    apply Qle_bool_iff in Hle. lra.
Qed.

Lemma Qgtb_false a b : Qgtb a b = false <-> (a <= b)%Q.
Proof.
  unfold Qgtb. rewrite negb_false_iff. apply Qle_bool_iff.
Qed.

#[local] Instance Qgtb_proper : Proper (Qeq ==> Qeq ==> eq) Qgtb.
Proof. intros a a' Ha b b' Hb. unfold Qgtb. now rewrite Ha, Hb. Qed.

Lemma score_proper avg avg' err err' s s' n n' m m' k k' :
  (avg == avg')%Q -> (err == err')%Q ->
  calculatePerformanceScore (mkResult avg s err n m k) =
  calculatePerformanceScore (mkResult avg' s' err' n' m' k').
Proof.
  intros Ha He. unfold calculatePerformanceScore. simpl.
  assert (forall c, Qgtb avg c = Qgtb avg' c) as Hca by (intros c; now apply Qgtb_proper).
  assert (forall c, Qgtb err c = Qgtb err' c) as Hce by (intros c; now apply Qgtb_proper).
  rewrite !Hca, !Hce. reflexivity.
Qed.

Lemma aggregate_counts p t :
  (successfulRequests (aggregate p t) + failedRequests (aggregate p t))%nat
  = totalRequests (aggregate p t).
Proof. destruct p; reflexivity. Qed.

Lemma aggregate_total p samples :
  totalRequests (aggregate p (accumulate samples)) = length samples /\
  successfulRequests (aggregate p (accumulate samples)) = length (latencies samples) /\
  failedRequests (aggregate p (accumulate samples)) = length (failures samples).
Proof.
  pose proof (latencies_failures_length samples).
  destruct p; simpl; rewrite accumulate_successCount, accumulate_failCount; auto.
Qed.

Lemma shares_rounded s f :
  (0 < s + f)%nat ->
  (Qabs (inject_Z (Math_round (ofNat s / ofNat (s + f) * 100 * 100)) / 100
         + inject_Z (Math_round (ofNat f / ofNat (s + f) * 100 * 100)) / 100 - 100)
   <= 1 # 100)%Q.
Proof.
  intros H. pose proof (shares_exact s f H) as Hsum.
  set (x := (ofNat s / ofNat (s + f) * 100)%Q) in *.
  set (y := (ofNat f / ofNat (s + f) * 100)%Q) in *.
  destruct (Math_round_bounds (x * 100)) as [Hx1 Hx2].
  destruct (Math_round_bounds (y * 100)) as [Hy1 Hy2].
  apply Qabs_Qle_condition.
  unfold Qdiv. change (/ 100)%Q with (1 # 100)%Q. split; lra.
Qed.

Lemma aggregate_rates p t :
  (0 < totalRequests (aggregate p t))%nat ->
  (Qabs (successRate (aggregate p t) + errorRate (aggregate p t) - 100) <= 1 # 100)%Q.
Proof.
  intros H.
  assert (0 < successCount t + failCount t)%nat as Hpos by (destruct p; exact H).
  assert ((0 <? successCount t + failCount t)%nat = true) as Hb by now apply Nat.ltb_lt.
  destruct p; cbn [aggregate aggregateExact aggregateRounded successRate errorRate];
    rewrite Hb.
  1: now apply shares_rounded.
  all: pose proof (shares_exact _ _ Hpos) as Hsum;
    apply (proj2 (Qabs_Qle_condition _ _)); split; lra.
Qed.

End Results.

(** Against the steady target each of the four profiles returns a
    result for a campaign of one second. *)
Example profiles_return p :
  is_Some (outcome (run p 1000 "u" 1 steady (boot noStorage))).
Proof. destruct p; vm_compute; eauto. Qed.

(** C7. Every result a profile returns has
    [successfulRequests + failedRequests = totalRequests], and when
    [totalRequests > 0] its two rates add up to 100 within one unit of
    the second decimal. *)
Theorem result_counts_and_rates p fuel url duration E w r :
  outcome (run p fuel url duration E w) = Some r ->
  (successfulRequests r + failedRequests r)%nat = totalRequests r /\
  ((0 < totalRequests r)%nat ->
   (Qabs (successRate r + errorRate r - 100) <= 1 # 100)%Q).
Proof.
  intros Hrun. pose proof (run_spec p fuel url duration E w) as Hspec.
  destruct (run p fuel url duration E w) as [r' w'| |]; try discriminate.
  injection Hrun as ->. destruct Hspec as (samples & ->).
  split; [apply aggregate_counts | apply aggregate_rates].
Qed.

Lemma result_counts_and_rates_witness :
  outcome (run ResponseTime 101 "u" 0 refusing (boot noStorage))
    = Some (mkResult 0 (0 # 100) (10000 # 100) 5 0 5) /\
  (0 + 5 = 5)%nat /\ (Qabs ((0 # 100) + (10000 # 100) - 100) <= 1 # 100)%Q.
Proof.
  assert (outcome (run ResponseTime 101 "u" 0 refusing (boot noStorage))
          = Some (mkResult 0 (0 # 100) (10000 # 100) 5 0 5)) as H
    by (vm_compute; reflexivity).
  split; [exact H|].
  destruct (result_counts_and_rates _ _ _ _ _ _ _ H) as [Hc Hr].
  split; [exact Hc | apply Hr; simpl; lia].
Defined.

(** *** The score of a campaign without a success, and without a sample *)

Lemma all_failed_latencies samples :
  Forall (fun s => succeeded s = false) samples -> latencies samples = [].
Proof.
  unfold latencies. induction 1 as [|s samples Hs _ IH]; [reflexivity|].
  rewrite filter_cons. case_decide; [congruence | exact IH].
Qed.

Lemma all_failed_failures samples :
  Forall (fun s => succeeded s = false) samples -> failures samples = samples.
Proof.
  unfold failures. induction 1 as [|s samples Hs _ IH]; [reflexivity|].
  rewrite filter_cons. case_decide; [now rewrite IH | congruence].
Qed.

Lemma Math_round_proper x y : (x == y)%Q -> Math_round x = Math_round y.
Proof. intros H. unfold Math_round. now rewrite H. Qed.

(** C2, as stated, fails: five refused connections give [errorRate = 100]
    and [averageResponseTime = 0], and the score is 60. *)
Lemma all_failed_score_is_not_zero :
  let r := aggregate ResponseTime (accumulate (replicate 5 (mkSample 0 Rejected))) in
  outcome (run ResponseTime 101 "u" 0 refusing (boot noStorage)) = Some r /\
  (errorRate r == 100)%Q /\ (averageResponseTime r == 0)%Q /\
  calculatePerformanceScore r <> 0.
Proof.
  vm_compute. repeat split; intros; discriminate.
Qed.

(** C2, amended. When a campaign took samples and every one failed, its
    result has [errorRate = 100] and [averageResponseTime = 0], and
    [calculatePerformanceScore] gives it exactly 60: the 40 points of the
    error-rate deduction are all that is taken off. *)
Theorem all_failed_score p samples :
  samples <> [] ->
  Forall (fun s => succeeded s = false) samples ->
  let r := aggregate p (accumulate samples) in
  (errorRate r == 100)%Q /\ (averageResponseTime r == 0)%Q /\
  calculatePerformanceScore r = 60.
Proof.
  intros Hne Hall r.
  assert (responses (accumulate samples) = []) as Hr
    by (rewrite accumulate_responses; now apply all_failed_latencies).
  assert (successCount (accumulate samples) = 0%nat) as Hs
    by (rewrite accumulate_successCount, all_failed_latencies; auto).
  assert (0 < failCount (accumulate samples))%nat as Hf.
  { rewrite accumulate_failCount, all_failed_failures by assumption.
    destruct samples; [congruence | simpl; lia]. }
  assert ((0 <? 0 + failCount (accumulate samples))%nat = true) as Hb
    by (apply Nat.ltb_lt; lia).
  pose proof (ofNat_pos _ Hf) as Hp.
  assert (errorRate r == 100)%Q as He.
  { subst r. destruct p;
      cbn [aggregate aggregateExact aggregateRounded errorRate]; rewrite Hs, Hb.
    - rewrite (Math_round_proper _ (inject_Z 10000)).
      + rewrite Math_round_Z. reflexivity.
      + rewrite Nat.add_0_l. change (inject_Z 10000) with 10000%Q. field. lra.
    - rewrite Nat.add_0_l. field. lra.
    - rewrite Nat.add_0_l. field. lra.
    - rewrite Nat.add_0_l. field. lra. }
  assert (averageResponseTime r = 0%Q) as Ha.
  { subst r. destruct p;
      cbn [aggregate aggregateExact aggregateRounded averageResponseTime];
      rewrite Hr; reflexivity. }
  split; [exact He|]. split; [rewrite Ha; reflexivity|].
  destruct r as [avg sr er n m k]. simpl in He, Ha. subst avg.
  rewrite (score_proper 0 0 er 100 sr sr n n m m k k); [reflexivity| reflexivity |exact He].
Qed.

Lemma all_failed_score_witness :
  let samples := [mkSample 0 Rejected; mkSample 120 (Responded false 503)] in
  samples <> [] /\ Forall (fun s => succeeded s = false) samples /\
  calculatePerformanceScore (aggregate LoadTest (accumulate samples)) = 60.
Proof.
  intros samples.
  assert (samples <> []) as Hne by discriminate.
  assert (Forall (fun s => succeeded s = false) samples) as Hall
    by (repeat constructor).
  split; [exact Hne|]. split; [exact Hall|].
  apply (all_failed_score LoadTest samples Hne Hall).
Defined.

(** C3, as stated, fails on the score: a reliability test of duration 0
    takes no sample, and its all-zero result scores 100. *)
Lemma empty_campaign_score_is_not_zero :
  exists r, outcome (run ReliabilityTest 1 "u" 0 steady (boot noStorage)) = Some r /\
            totalRequests r = 0%nat /\ calculatePerformanceScore r <> 0.
Proof.
  eexists. split; [vm_compute; reflexivity|]. split; [reflexivity|].
  vm_compute. discriminate.
Qed.

(** C3, amended. When a campaign took no sample ([totalRequests = 0]),
    every field of its result is zero and its performance score is 100:
    nothing is deducted. *)
Theorem empty_campaign_result p samples :
  totalRequests (aggregate p (accumulate samples)) = 0%nat ->
  let r := aggregate p (accumulate samples) in
  averageResponseTime r = 0%Q /\ successRate r = 0%Q /\ errorRate r = 0%Q /\
  totalRequests r = 0%nat /\ successfulRequests r = 0%nat /\ failedRequests r = 0%nat /\
  calculatePerformanceScore r = 100.
Proof.
  intros H r. destruct (aggregate_total p samples) as (Ht & _).
  rewrite H in Ht. symmetry in Ht. apply length_zero_iff_nil in Ht.
  subst r samples. destruct p; vm_compute; repeat split; reflexivity.
Qed.

Lemma empty_campaign_result_witness :
  totalRequests (aggregate StressTest (accumulate [])) = 0%nat /\
  calculatePerformanceScore (aggregate StressTest (accumulate [])) = 100.
Proof.
  assert (totalRequests (aggregate StressTest (accumulate [])) = 0%nat) as H
    by reflexivity.
  split; [exact H|]. apply (empty_campaign_result StressTest [] H).
Defined.

(** *** The ceiling of the latency probe *)

(** The latency probe always returns, given fuel for 101 iterations. *)
Lemma latency_probe_returns fuel url duration E w :
  (101 <= fuel)%nat ->
  exists r, outcome (run ResponseTime fuel url duration E w) = Some r.
Proof.
  intros Hfuel. simpl. unfold runResponseTimeTest, bind, dateNow.
  match goal with |- context [responseTimeLoop ?f ?e ?t ?rc ?E ?w] =>
    pose proof (responseTimeLoop_spec f e t rc E w ltac:(lia)) as H;
    destruct (responseTimeLoop f e t rc E w) end.
  - unfold ret. simpl. eauto.
  - contradiction.
  - lia.
Qed.

(** It issues at least 5 and at most 101 requests. *)
Lemma latency_probe_bounds fuel url duration E w r :
  outcome (run ResponseTime fuel url duration E w) = Some r ->
  (5 <= totalRequests r <= 101)%nat.
Proof.
  simpl. unfold runResponseTimeTest, bind, dateNow.
  match goal with |- context [responseTimeLoop ?f ?e ?t ?rc ?E ?w] =>
    pose proof (responseTimeLoop_spec f e t rc E w ltac:(lia)) as H;
    destruct (responseTimeLoop f e t rc E w) end; try discriminate.
  destruct H as (ss & -> & Hb). unfold ret. simpl. intros [= <-].
  change (fold_left record ss emptyTally) with (accumulate ss).
  destruct (aggregate_total ResponseTime ss) as (Ht & _). simpl in Ht.
  cbn [aggregateRounded totalRequests]. unfold minimumRequests in Hb. lia.
Qed.

(** C4. Against a target that answers in 20 ms, a latency probe of 60 s
    returns with [totalRequests = 101]: the test [requestCount > 100]
    lets the 101st request through. *)
Theorem latency_probe_issues_101_requests :
  totalRequests <$> outcome (run ResponseTime 101 "u" 60 steady (boot noStorage))
  = Some 101%nat.
Proof. vm_compute. reflexivity. Qed.

(** *** Rounding, profile by profile *)

Lemma rounded_twoDecimals x : twoDecimals (inject_Z (Math_round x) / 100).
Proof. now exists (Math_round x). Qed.

Lemma zero_twoDecimals : twoDecimals 0.
Proof. now exists 0. Qed.

(** There is one rounding of a number to a multiple of a unit. *)
Lemma roundedTo_unique unit x y y' :
  (0 < unit)%Q -> roundedTo unit x y -> roundedTo unit x y' -> (y == y')%Q.
Proof.
  intros Hu ((k & Hk) & Hl & Hh) ((k' & Hk') & Hl' & Hh').
  assert (inject_Z k * unit - inject_Z k' * unit < unit)%Q as H1.
  { rewrite <- Hk, <- Hk'. unfold Qdiv in *. change (/ 2)%Q with (1 # 2)%Q in *. lra. }
  assert (inject_Z k' * unit - inject_Z k * unit < unit)%Q as H2.
  { rewrite <- Hk, <- Hk'. unfold Qdiv in *. change (/ 2)%Q with (1 # 2)%Q in *. lra. }
  assert (k = k') as ->; [|now rewrite Hk, Hk'].
  assert (inject_Z (k - k') < 1)%Q as H3.
  { unfold Z.sub. rewrite inject_Z_plus, inject_Z_opp.
    apply Qmult_lt_r with (z := unit); [exact Hu|]. lra. }
  assert (inject_Z (k' - k) < 1)%Q as H4.
  { unfold Z.sub. rewrite inject_Z_plus, inject_Z_opp.
    apply Qmult_lt_r with (z := unit); [exact Hu|]. lra. }
  change 1%Q with (inject_Z 1) in H3, H4. rewrite <- Zlt_Qlt in H3, H4. lia.
Qed.

(** [Math.round(x * 100) / 100] is [x] rounded to two decimals. *)
Lemma rounded_hundredths x :
  roundedTo (1 # 100) x (inject_Z (Math_round (x * 100)) / 100).
Proof.
  pose proof (Math_round_bounds (x * 100)) as [Hl Hu].
  split; [now exists (Math_round (x * 100))|].
  set (r := inject_Z (Math_round (x * 100))) in *. clearbody r.
  split; unfold Qdiv; change (/ 100)%Q with (1 # 100)%Q; change (/ 2)%Q with (1 # 2)%Q; lra.
Qed.

(** [Math.round(x)] is [x] rounded to an integer. *)
Lemma rounded_units x : roundedTo 1 x (inject_Z (Math_round x)).
Proof.
  pose proof (Math_round_bounds x) as [Hl Hu].
  split; [exists (Math_round x); ring|].
  split; unfold Qdiv; change (/ 2)%Q with (1 # 2)%Q; lra.
Qed.

Lemma roundedTo_zero unit : (0 < unit)%Q -> roundedTo unit 0 0.
Proof.
  intros H. split; [exists 0; ring|].
  split; unfold Qdiv; change (/ 2)%Q with (1 # 2)%Q; lra.
Qed.

(** C6, as stated, fails twice. A load test of one second against a
    target that answers one request out of the three the campaign has
    time to issue returns a success rate of 100/3, which no two decimals
    write. A latency probe of duration 0 whose five requests are
    answered after 1, 2, 2, 2 and 2 ms reports an average of 2, not their
    mean 9/5. *)
Lemma rates_and_average_not_as_claimed :
  (exists r w,
     run LoadTest 20 "u" 1 thirds (boot noStorage) = Returned r w /\
     totalRequests r = 3%nat /\ successfulRequests r = 1%nat /\
     (successRate r == 100 # 3)%Q /\
     ~ twoDecimals (successRate r)) /\
  (exists t w,
     responseTimeLoop 20 (clock hastening 0 + 0 * 1000) emptyTally 0 hastening
       (withReads 1 (boot noStorage)) = Returned t w /\
     run ResponseTime 20 "u" 0 hastening (boot noStorage)
       = Returned (aggregate ResponseTime t) w /\
     responses t = [1; 2; 2; 2; 2] /\ failCount t = 0%nat /\
     (averageResponseTime (aggregate ResponseTime t) == 2)%Q /\
     ~ (averageResponseTime (aggregate ResponseTime t) == mean (responses t))%Q).
Proof.
  split.
  - do 2 eexists. split; [vm_compute; reflexivity|].
    split; [reflexivity|]. split; [reflexivity|].
    match goal with |- (?x == _)%Q /\ _ =>
      assert (x == 100 # 3)%Q as Hv by (vm_compute; reflexivity) end.
    split; [exact Hv|]. intros [k Hk].
    assert ((100 # 3) == inject_Z k / 100)%Q as H by (rewrite <- Hv; exact Hk).
    unfold Qeq in H. simpl in H. lia.
  - do 2 eexists. split; [vm_compute; reflexivity|].
    split; [vm_compute; reflexivity|]. split; [reflexivity|]. split; [reflexivity|].
    split; [vm_compute; reflexivity|]. vm_compute. discriminate.
Qed.

(** C6, amended. The latency probe rounds both rates to two decimals:
    each is the multiple of 0.01 nearest to the percentage of the
    requests issued, a half going up; and it reports the mean of the
    elapsed times of its successful samples rounded to the nearest
    integer. The load, stress and reliability tests report the two
    percentages and that mean as they are. In all four, a failed sample
    is counted in [totalRequests] and [failedRequests] and its elapsed
    time enters no average. *)
Theorem aggregation_by_profile p samples :
  let r := aggregate p (accumulate samples) in
  let successShare := percentage (length (latencies samples)) (length samples) in
  let errorShare := percentage (length (failures samples)) (length samples) in
  match p with
  | ResponseTime =>
      roundedTo (1 # 100) successShare (successRate r) /\
      roundedTo (1 # 100) errorShare (errorRate r) /\
      roundedTo 1 (meanLatency samples) (averageResponseTime r) /\
      twoDecimals (successRate r) /\ twoDecimals (errorRate r) /\
      (averageResponseTime r == inject_Z (Math_round (meanLatency samples)))%Q
  | _ =>
      (successRate r == successShare)%Q /\ (errorRate r == errorShare)%Q /\
      (averageResponseTime r == meanLatency samples)%Q
  end /\
  totalRequests r = length samples /\
  successfulRequests r = length (latencies samples) /\
  failedRequests r = length (failures samples).
Proof.
  intros r successShare errorShare. split; [|apply aggregate_total].
  subst r successShare errorShare. unfold meanLatency, percentage.
  pose proof (latencies_failures_length samples) as Hlen.
  destruct p; cbn [aggregate aggregateExact aggregateRounded averageResponseTime
                   successRate errorRate];
    rewrite ?accumulate_responses, ?accumulate_successCount, ?accumulate_failCount, Hlen.
  - assert (0 < 1 # 100)%Q as Hu by reflexivity.
    assert (0 < 1)%Q as Hone by reflexivity.
    split_and!.
    + destruct (0 <? _)%nat; [apply rounded_hundredths | now apply roundedTo_zero].
    + destruct (0 <? _)%nat; [apply rounded_hundredths | now apply roundedTo_zero].
    + destruct (latencies samples); [now apply roundedTo_zero | apply rounded_units].
    + destruct (0 <? _)%nat; [apply rounded_twoDecimals | apply zero_twoDecimals].
    + destruct (0 <? _)%nat; [apply rounded_twoDecimals | apply zero_twoDecimals].
    + destruct (latencies samples); reflexivity.
  - split_and!; try reflexivity. destruct (latencies samples); reflexivity.
  - split_and!; try reflexivity. destruct (latencies samples); reflexivity.
  - split_and!; try reflexivity. destruct (latencies samples); reflexivity.
Qed.

(** *** The monitor's check and tick *)

Section Monitor.

Import ReliabilityService.

(** The check returns, leaves the storage alone, and its result is
    decided by how the request settles. *)
Lemma performUptimeCheck_returns url E w :
  exists result w',
    performUptimeCheck url E w = Returned result w' /\
    calls w' = calls w /\ db w' = db w /\ journal w' = journal w /\
    result = match net E (sent w) with
             | Responded ok status =>
                 mkUptime (if ok then 100 else 0)
                          (clock E (S (reads w)) - clock E (reads w)) ok (Some status)
             | Rejected => mkUptime 0 0 false None
             end.
Proof.
  unfold performUptimeCheck, tryCatch, bind, dateNow, fetch, console_error, ret. simpl.
  destruct (net E (sent w)) as [ok status|]; simpl; do 2 eexists; repeat split.
Qed.

(** The performance record of a tick holds integers, which the decimal
    columns keep as they are. *)
Lemma storedPerformance_tick applicationId result :
  storedPerformance (performanceMetricsOf applicationId result)
  = performanceMetricsOf applicationId result.
Proof.
  unfold storedPerformance, performanceMetricsOf. cbn [pm_applicationId pm_responseTime
    pm_uptime pm_errorRate pm_performanceScore].
  rewrite !decimal2_Z. f_equal.
  destruct (isOnline result); [apply (decimal2_Z 0) | apply (decimal2_Z 100)].
Qed.

Ltac run_statement :=
  unfold storage.createReliabilityMetrics, storage.createPerformanceMetrics,
    statement, bind, console_error, ret.

(** What a tick calls, and what it leaves in the two metrics tables,
    by the storage statements that throw. *)
Lemma checkReliability_effect applicationId url E w :
  exists result,
    outcome (performUptimeCheck url E w) = Some result /\
    let r := checkReliability applicationId url E w in
    let first := CreateReliabilityMetrics (reliabilityMetricsOf applicationId result) in
    let second := CreatePerformanceMetrics (performanceMetricsOf applicationId result) in
    let last := CreateReliabilityMetrics (failureMetrics applicationId) in
    (issued w r, newReliability w r, newPerformance w r) =
    if fault E (calls w) then
      if fault E (S (calls w))
      then ([mkEntry first true; mkEntry last true], [], [])
      else ([mkEntry first true; mkEntry last false], [failureMetrics applicationId], [])
    else if fault E (S (calls w)) then
      if fault E (S (S (calls w)))
      then ([mkEntry first false; mkEntry second true; mkEntry last true],
            [reliabilityMetricsOf applicationId result], [])
      else ([mkEntry first false; mkEntry second true; mkEntry last false],
            [reliabilityMetricsOf applicationId result; failureMetrics applicationId], [])
    else ([mkEntry first false; mkEntry second false],
          [reliabilityMetricsOf applicationId result],
          [performanceMetricsOf applicationId result]).
Proof.
  destruct (performUptimeCheck_returns url E w)
    as (result & w' & Hrun & Hcalls & Hdb & Hjournal & _).
  exists result. split; [now rewrite Hrun|].
  unfold issued, newReliability, newPerformance.
  unfold checkReliability, tryCatch. run_statement. rewrite Hrun, Hcalls.
  destruct (fault E (calls w)) eqn:F0; cbn -[storedPerformance]; rewrite ?F0;
    destruct (fault E (S (calls w))) eqn:F1; cbn -[storedPerformance]; rewrite ?F1;
    try (destruct (fault E (S (S (calls w)))) eqn:F2; cbn -[storedPerformance]; rewrite ?F2);
    rewrite ?Hdb, ?Hjournal, <- ?app_assoc, ?drop_app_length, ?drop_all,
      ?storedPerformance_tick; reflexivity.
Qed.

Lemma mttr_of_result applicationId result :
  rm_mttr (reliabilityMetricsOf applicationId result)
    = toString (rm_outageCount (reliabilityMetricsOf applicationId result)) /\
  rm_mttr (reliabilityMetricsOf applicationId result)
    = (if isOnline result then "0" else "1")%string /\
  rm_outageCount (reliabilityMetricsOf applicationId result)
    = (if isOnline result then 0 else 1).
Proof. unfold reliabilityMetricsOf. simpl. destruct (isOnline result); repeat split. Qed.

End Monitor.

Import ReliabilityService.

(** Starting the monitor of a target twice leaves one armed timer, the
    second one, and stopping it leaves none. *)
Example restart_keeps_one_timer :
  let twice := (startMonitoring "app1" "u" ;;; startMonitoring "app1" "u")%engine in
  let w := worldOf (twice steady (boot noStorage)) in
  map_to_list (timers w) = [(1%nat, ("app1", "u"))]%string /\
  monitoringIntervals w !! "app1"%string = Some 1%nat /\
  map_to_list (timers (worldOf (stopMonitoring "app1" steady w))) = [].
Proof. vm_compute. repeat split. Qed.

(** C9. [performUptimeCheck] returns for every URL and never throws.
    When the request is rejected the result is exactly
    [{uptime: 0, responseTime: 0, isOnline: false}] without a status
    code, whatever time went by; when a response arrives the result
    carries its status code, [isOnline] is [response.ok], [uptime] is 100
    or 0 accordingly and [responseTime] is the difference of the two
    clock readings. *)
Theorem performUptimeCheck_total url E w :
  exists result w',
    performUptimeCheck url E w = Returned result w' /\
    match net E (sent w) with
    | Rejected => result = mkUptime 0 0 false None
    | Responded ok status =>
        result = mkUptime (if ok then 100 else 0)
                          (clock E (S (reads w)) - clock E (reads w)) ok (Some status)
    end.
Proof.
  destruct (performUptimeCheck_returns url E w) as (result & w' & Hrun & _ & _ & _ & Hres).
  exists result, w'. split; [exact Hrun|].
  destruct (net E (sent w)); exact Hres.
Qed.

(** C1, as stated, fails. When the first storage write of a tick throws,
    the tick leaves the failure record and no performance record; when
    the second one throws, it leaves two reliability records and no
    performance record. Neither is one record pair. *)
Lemma failed_tick_writes_no_pair :
  let w := boot noStorage in
  let r0 := checkReliability "app1" "u" (failing [0%nat] steady) w in
  let r1 := checkReliability "app1" "u" (failing [1%nat] steady) w in
  (newReliability w r0 = [failureMetrics "app1"] /\ newPerformance w r0 = []) /\
  (length (newReliability w r1) = 2%nat /\ newPerformance w r1 = []) /\
  ~ (length (newReliability w r0) = 1%nat /\ length (newPerformance w r0) = 1%nat).
Proof.
  vm_compute. repeat split. intros [_ H]. discriminate.
Qed.

(** C1, amended. A tick in which no storage write throws leaves exactly
    one reliability record and one performance record. A tick in which a
    write of the [try] block throws leaves no performance record: its
    [catch] branch writes the total-failure reliability record
    ([uptime "0"], [slaCompliance "0"], [outageCount 1]), after the
    reliability record of the check when it was the performance write
    that threw, unless that write throws too. *)
Theorem tick_records applicationId url E w :
  let r := checkReliability applicationId url E w in
  exists result,
    outcome (performUptimeCheck url E w) = Some result /\
    failureMetrics applicationId = mkReliability applicationId "0" "0" 1 "1" /\
    (newReliability w r, newPerformance w r) =
    if fault E (calls w) then
      (if fault E (S (calls w)) then [] else [failureMetrics applicationId], [])
    else if fault E (S (calls w)) then
      (reliabilityMetricsOf applicationId result
         :: (if fault E (S (S (calls w))) then [] else [failureMetrics applicationId]), [])
    else ([reliabilityMetricsOf applicationId result],
          [performanceMetricsOf applicationId result]).
Proof.
  intros r. destruct (checkReliability_effect applicationId url E w) as (result & Hres & H).
  exists result. split; [exact Hres|]. split; [reflexivity|].
  fold r in H. simpl in H.
  destruct (fault E (calls w)), (fault E (S (calls w)));
    try destruct (fault E (S (S (calls w)))); now inversion H.
Qed.

(** C10. The first call of a tick writes the reliability record of the
    check, and every reliability record a tick passes to the storage is
    that record or the failure record. In both the [mttr] string is the
    decimal of [outageCount]: ["0"] with 0 when the target is online,
    ["1"] with 1 when it is not, ["1"] with 1 in the [catch] branch. *)
Theorem mttr_equals_outageCount applicationId url E w :
  let r := checkReliability applicationId url E w in
  exists result,
    outcome (performUptimeCheck url E w) = Some result /\
    head (issued w r)
      = Some (mkEntry (CreateReliabilityMetrics (reliabilityMetricsOf applicationId result))
                      (fault E (calls w))) /\
    Forall (fun e => match call e with
                     | CreateReliabilityMetrics m =>
                         (m = reliabilityMetricsOf applicationId result \/
                          m = failureMetrics applicationId) /\
                         rm_mttr m = toString (rm_outageCount m)
                     | _ => True
                     end) (issued w r) /\
    rm_mttr (reliabilityMetricsOf applicationId result)
      = (if isOnline result then "0" else "1")%string /\
    rm_outageCount (reliabilityMetricsOf applicationId result)
      = (if isOnline result then 0 else 1) /\
    rm_mttr (failureMetrics applicationId) = "1"%string /\
    rm_outageCount (failureMetrics applicationId) = 1.
Proof.
  intros r. destruct (checkReliability_effect applicationId url E w) as (result & Hres & H).
  exists result. split; [exact Hres|].
  fold r in H. simpl in H.
  destruct (mttr_of_result applicationId result) as (Hm & Hm' & Ho).
  assert (issued w r =
          if fault E (calls w) then
            [mkEntry (CreateReliabilityMetrics (reliabilityMetricsOf applicationId result)) true;
             mkEntry (CreateReliabilityMetrics (failureMetrics applicationId))
                     (fault E (S (calls w)))]
          else if fault E (S (calls w)) then
            [mkEntry (CreateReliabilityMetrics (reliabilityMetricsOf applicationId result)) false;
             mkEntry (CreatePerformanceMetrics (performanceMetricsOf applicationId result)) true;
             mkEntry (CreateReliabilityMetrics (failureMetrics applicationId))
                     (fault E (S (S (calls w))))]
          else
            [mkEntry (CreateReliabilityMetrics (reliabilityMetricsOf applicationId result)) false;
             mkEntry (CreatePerformanceMetrics (performanceMetricsOf applicationId result)) false])
    as ->.
  { destruct (fault E (calls w)), (fault E (S (calls w)));
      try destruct (fault E (S (S (calls w)))); now inversion H. }
  repeat split; try assumption.
  - destruct (fault E (calls w)), (fault E (S (calls w))); reflexivity.
  - destruct (fault E (calls w)), (fault E (S (calls w)));
      repeat first [apply Forall_nil | apply Forall_cons; split]; simpl;
      try exact I;
      (split; [first [left; reflexivity | right; reflexivity]
              | first [assumption | reflexivity]]).
Qed.

(** *** Independence of the storage contents *)

Section Independence.

Variable P : Storage -> Storage -> Prop.

Lemma alike_fields w1 w2 :
  alike P w1 w2 ->
  reads w2 = reads w1 /\ sent w2 = sent w1 /\ turns w2 = turns w1 /\
  calls w2 = calls w1 /\ journal w2 = journal w1 /\
  monitoringIntervals w2 = monitoringIntervals w1 /\ timers w2 = timers w1 /\
  nextTimer w2 = nextTimer w1.
Proof. intros [-> _]. repeat split. Qed.

Lemma alike_intro w1 w2 :
  reads w2 = reads w1 -> sent w2 = sent w1 -> turns w2 = turns w1 ->
  calls w2 = calls w1 -> journal w2 = journal w1 ->
  monitoringIntervals w2 = monitoringIntervals w1 -> timers w2 = timers w1 ->
  nextTimer w2 = nextTimer w1 -> P (db w1) (db w2) -> alike P w1 w2.
Proof.
  destruct w1, w2; simpl; intros; subst. split; [reflexivity | assumption].
Qed.


Lemma blind_ret {A} (a : A) : blind P (ret a).
Proof. intros E w1 w2 H. now split. Qed.

Lemma blind_throw {A} : blind P (@throw A).
Proof. intros E w1 w2 H. exact H. Qed.

Lemma blind_starve {A} : blind P (@starve A).
Proof. intros E w1 w2 H. exact H. Qed.

Lemma blind_bind {A B} (m : M A) (k : A -> M B) :
  blind P m -> (forall a, blind P (k a)) -> blind P (bind m k).
Proof.
  intros Hm Hk E w1 w2 H. unfold bind. specialize (Hm E w1 w2 H).
  destruct (m E w1), (m E w2); simpl in Hm; try contradiction; try exact Hm.
  destruct Hm as [-> Hm]. now apply Hk.
Qed.

Lemma blind_tryCatch {A} (body handler : M A) :
  blind P body -> blind P handler -> blind P (tryCatch body handler).
Proof.
  intros Hb Hh E w1 w2 H. unfold tryCatch. specialize (Hb E w1 w2 H).
  destruct (body E w1), (body E w2); simpl in Hb; try contradiction; try exact Hb.
  now apply Hh.
Qed.

Lemma blind_if {A} (b : bool) (m1 m2 : M A) :
  blind P m1 -> blind P m2 -> blind P (if b then m1 else m2).
Proof. now destruct b. Qed.

Lemma blind_dateNow : blind P dateNow.
Proof.
  intros E w1 w2 H. pose proof (alike_fields _ _ H) as (Hr & Hs & Ht & Hc & Hj & Hm & Hti & Hn).
  destruct H as [_ H]. unfold dateNow. rewrite Hr. split; [reflexivity|].
  now apply alike_intro.
Qed.

Lemma blind_fetch : blind P fetch.
Proof.
  intros E w1 w2 H. pose proof (alike_fields _ _ H) as (Hr & Hs & Ht & Hc & Hj & Hm & Hti & Hn).
  destruct H as [_ H]. unfold fetch. rewrite Hs. split; [reflexivity|].
  now apply alike_intro.
Qed.

Lemma blind_pick : blind P pick.
Proof.
  intros E w1 w2 H. pose proof (alike_fields _ _ H) as (Hr & Hs & Ht & Hc & Hj & Hm & Hti & Hn).
  destruct H as [_ H]. unfold pick. rewrite Ht. split; [reflexivity|].
  now apply alike_intro.
Qed.

Lemma blind_await r : blind P (await r).
Proof. destruct r; [apply blind_ret | apply blind_throw]. Qed.

Lemma blind_sleep ms : blind P (sleep ms).
Proof. apply blind_ret. Qed.

Lemma blind_console_error : blind P console_error.
Proof. apply blind_ret. Qed.

Lemma blind_statement {A} c effect (value : Storage -> A) :
  (forall d1 d2, P d1 d2 -> P (effect d1) (effect d2) /\ value d1 = value d2) ->
  blind P (statement c effect value).
Proof.
  intros Hc E w1 w2 H.
  pose proof (alike_fields _ _ H) as (Hr & Hs & Ht & Hca & Hj & Hm & Hti & Hn).
  destruct H as [_ H]. unfold statement. rewrite Hca, Hj.
  destruct (Hc _ _ H) as [HP Hv].
  destruct (fault E (calls w1)); simpl.
  - now apply alike_intro.
  - split; [exact Hv|]. now apply alike_intro.
Qed.

Hypothesis P_perf : forall d1 d2 m,
  P d1 d2 ->
  P (mkStorage (benchmarks d1) (performanceMetrics d1 ++ [m]) (reliabilityMetrics d1))
    (mkStorage (benchmarks d2) (performanceMetrics d2 ++ [m]) (reliabilityMetrics d2)).

Hypothesis P_rel : forall d1 d2 m,
  P d1 d2 ->
  P (mkStorage (benchmarks d1) (performanceMetrics d1) (reliabilityMetrics d1 ++ [m]))
    (mkStorage (benchmarks d2) (performanceMetrics d2) (reliabilityMetrics d2 ++ [m])).

Hypothesis P_update : forall d1 d2 id data,
  P d1 d2 ->
  P (mkStorage (alter (storage.patch data) id (benchmarks d1))
       (performanceMetrics d1) (reliabilityMetrics d1))
    (mkStorage (alter (storage.patch data) id (benchmarks d2))
       (performanceMetrics d2) (reliabilityMetrics d2)).

Lemma blind_createPerformanceMetrics m : blind P (storage.createPerformanceMetrics m).
Proof. apply blind_statement. intros d1 d2 H. split; [now apply P_perf | reflexivity]. Qed.

Lemma blind_createReliabilityMetrics m : blind P (storage.createReliabilityMetrics m).
Proof. apply blind_statement. intros d1 d2 H. split; [now apply P_rel | reflexivity]. Qed.

Lemma blind_updateBenchmark id data : blind P (storage.updateBenchmark id data).
Proof.
  unfold storage.updateBenchmark. apply blind_if; [apply blind_ret|].
  apply blind_statement. intros d1 d2 H. split; [now apply P_update | reflexivity].
Qed.

Ltac blind :=
  repeat first
    [ apply blind_ret | apply blind_throw | apply blind_starve
    | apply blind_dateNow | apply blind_fetch | apply blind_pick
    | apply blind_await | apply blind_sleep | apply blind_console_error
    | apply blind_createPerformanceMetrics | apply blind_createReliabilityMetrics
    | apply blind_updateBenchmark
    | assumption
    | apply blind_bind; [|intros ?]
    | apply blind_tryCatch
    | apply blind_if ].













Import ReliabilityService.








End Independence.

(** *** What [runBenchmark] and the monitor take from the storage *)

Section ReadBack.








Lemma stopMonitoring_returns a E w :
  exists w', stopMonitoring a E w = Returned tt w' /\ journal w' = journal w.
Proof.
  unfold stopMonitoring. destruct (monitoringIntervals w !! a); simpl; eauto.
Qed.


End ReadBack.


(** *** The campaign's status when the storage does not fail *)

Section Lifecycle.

Lemma quiet_ret {A} (a : A) : quiet (ret a).
Proof. intros E w. repeat split. Qed.

Lemma quiet_throw {A} : quiet (@throw A).
Proof. intros E w. repeat split. Qed.

Lemma quiet_starve {A} : quiet (@starve A).
Proof. intros E w. repeat split. Qed.

Lemma quiet_bind {A B} (m : M A) (k : A -> M B) :
  quiet m -> (forall a, quiet (k a)) -> quiet (bind m k).
Proof.
  intros Hm Hk E w. unfold bind. specialize (Hm E w).
  destruct (m E w) as [a w'| |]; simpl in Hm; try exact Hm.
  destruct (Hk a E w') as (Hj & Hc & Hd). destruct Hm as (Hj' & Hc' & Hd').
  repeat split; congruence.
Qed.

Lemma quiet_tryCatch {A} (body handler : M A) :
  quiet body -> quiet handler -> quiet (tryCatch body handler).
Proof.
  intros Hb Hh E w. unfold tryCatch. specialize (Hb E w).
  destruct (body E w) as [a w'|w'|]; simpl in Hb; try exact Hb.
  destruct (Hh E w') as (Hj & Hc & Hd). destruct Hb as (Hj' & Hc' & Hd').
  repeat split; congruence.
Qed.

Lemma quiet_if {A} (b : bool) (m1 m2 : M A) :
  quiet m1 -> quiet m2 -> quiet (if b then m1 else m2).
Proof. now destruct b. Qed.

Lemma quiet_dateNow : quiet dateNow.
Proof. intros E w. repeat split. Qed.

Lemma quiet_fetch : quiet fetch.
Proof. intros E w. repeat split. Qed.

Lemma quiet_pick : quiet pick.
Proof. intros E w. repeat split. Qed.

Lemma quiet_await r : quiet (await r).
Proof. destruct r; [apply quiet_ret | apply quiet_throw]. Qed.

Ltac quiet :=
  repeat first
    [ apply quiet_ret | apply quiet_throw | apply quiet_starve
    | apply quiet_dateNow | apply quiet_fetch | apply quiet_pick | apply quiet_await
    | apply quiet_bind; [|intros ?]
    | apply quiet_tryCatch
    | apply quiet_if ].

Lemma quiet_responseTimeLoop fuel : forall endTime t rc,
  quiet (responseTimeLoop fuel endTime t rc).
Proof.
  induction fuel as [|fuel IH]; intros endTime t rc; simpl; [apply quiet_starve|].
  quiet. apply IH.
Qed.

Lemma quiet_reliabilityLoop fuel : forall endTime t, quiet (reliabilityLoop fuel endTime t).
Proof.
  induction fuel as [|fuel IH]; intros endTime t; simpl; [apply quiet_starve|].
  quiet. apply IH.
Qed.

Lemma quiet_resume deadline wk t : quiet (resume deadline wk t).
Proof. destruct wk; simpl; quiet. Qed.

Lemma quiet_eventLoop fuel : forall deadline ws t, quiet (eventLoop fuel deadline ws t).
Proof.
  induction fuel as [|fuel IH]; intros deadline ws t.
  - destruct ws; simpl; quiet.
  - destruct ws as [|wk0 ws]; [apply quiet_ret|]. cbn [eventLoop].
    apply quiet_bind; [apply quiet_pick|]. intros k.
    destruct (_ !! _); [|apply quiet_ret].
    apply quiet_bind; [apply quiet_resume|]. intros [[wk'|] t']; apply IH.
Qed.

Lemma quiet_spawn n : forall deadline, quiet (spawn n deadline).
Proof.
  induction n as [|n IH]; intros deadline; simpl; [apply quiet_ret|].
  apply quiet_bind; [unfold advance; quiet|]. intros wk.
  apply quiet_bind; [apply IH|]. intros rest. apply quiet_ret.
Qed.

Lemma quiet_workers fuel n deadline t : quiet (workers fuel n deadline t).
Proof.
  unfold workers. apply quiet_bind; [apply quiet_spawn|]. intros ws. apply quiet_eventLoop.
Qed.

Lemma quiet_stressPhases fuel phases : forall testDuration t,
  quiet (stressPhases fuel phases testDuration t).
Proof.
  induction phases as [|phase phases IH]; intros testDuration t; simpl; [apply quiet_ret|].
  apply quiet_bind; [apply quiet_dateNow|]. intros now.
  apply quiet_bind; [apply quiet_workers|]. intros t'. apply IH.
Qed.

(** A profile makes no storage call. *)
Lemma quiet_run p fuel url duration : quiet (run p fuel url duration).
Proof.
  destruct p; simpl.
  - apply quiet_bind; [apply quiet_dateNow|]. intros now.
    apply quiet_bind; [apply quiet_responseTimeLoop|]. intros t. apply quiet_ret.
  - apply quiet_bind; [apply quiet_dateNow|]. intros now.
    apply quiet_bind; [apply quiet_workers|]. intros t. apply quiet_ret.
  - apply quiet_bind; [apply quiet_dateNow|]. intros now.
    apply quiet_bind; [apply quiet_stressPhases|]. intros t. apply quiet_ret.
  - apply quiet_bind; [apply quiet_dateNow|]. intros now.
    apply quiet_bind; [apply quiet_reliabilityLoop|]. intros t. apply quiet_ret.
Qed.

Lemma profile_dispatch p fuel url duration :
  (if String.eqb (typeOf p) "response_time" then runResponseTimeTest fuel url duration
   else if String.eqb (typeOf p) "load_test" then runLoadTest fuel url duration
   else if String.eqb (typeOf p) "stress_test" then runStressTest fuel url duration
   else if String.eqb (typeOf p) "reliability_test" then runReliabilityTest fuel url duration
   else throw) = run p fuel url duration.
Proof. destruct p; reflexivity. Qed.

Lemma statusWrites_app id j1 j2 :
  statusWrites id (j1 ++ j2) = statusWrites id j1 ++ statusWrites id j2.
Proof. apply omap_app. Qed.

Lemma bind_Returned {A B} (m : M A) (k : A -> M B) E w a w' :
  m E w = Returned a w' -> bind m k E w = k a E w'.
Proof. unfold bind. now intros ->. Qed.

Lemma bind_Starved {A B} (m : M A) (k : A -> M B) E w w' :
  m E w = Starved w' -> bind m k E w = Starved w'.
Proof. unfold bind. now intros ->. Qed.

Lemma statement_ok {A} c effect (value : Storage -> A) E w :
  fault E (calls w) = false ->
  statement c effect value E w =
  Returned (value (db w))
    (withStorage (S (calls w)) (effect (db w)) (journal w ++ [mkEntry c false]) w).
Proof. unfold statement. now intros ->. Qed.

(** When no storage statement throws, [runBenchmark] on a campaign of one
    of the four kinds either starves with its profile or returns after
    exactly two status writes to the campaign, [running] then
    [completed]. *)
Lemma lifecycle_without_faults p fuel id url duration E w :
  (forall k, fault E k = false) ->
  (exists w', runBenchmark fuel id url (typeOf p) duration E w = Starved w') \/
  (exists w' es,
     runBenchmark fuel id url (typeOf p) duration E w = Returned tt w' /\
     journal w' = journal w ++ es /\
     statusWrites id es = ["running"; "completed"]%string).
Proof.
  intros Hnf. unfold runBenchmark, tryCatch.
  rewrite profile_dispatch.
  erewrite bind_Returned by reflexivity.
  erewrite bind_Returned by (apply statement_ok, Hnf).
  match goal with |- context [bind (run p fuel url duration) _ E ?w2] =>
    pose proof (run_spec p fuel url duration E w2) as Hspec;
    destruct (quiet_run p fuel url duration E w2) as (Hj & Hc & Hd);
    destruct (run p fuel url duration E w2) as [res w3|w3|w3] eqn:Hrun end;
    [|contradiction|left; erewrite bind_Starved by eassumption; eauto].
  right. simpl in Hj, Hc, Hd.
  erewrite bind_Returned by eassumption.
  erewrite bind_Returned by reflexivity.
  erewrite bind_Returned by (apply statement_ok, Hnf).
  erewrite bind_Returned by (apply statement_ok, Hnf).
  cbn [db journal calls withStorage withReads].
  match goal with |- context [benchmarks ?d !! id] => destruct (benchmarks d !! id) end.
  - unfold storage.createPerformanceMetrics. rewrite statement_ok by apply Hnf.
    do 2 eexists. split; [reflexivity|].
    cbn [journal withStorage withReads]. rewrite Hj, <- !app_assoc.
    split; [reflexivity|]. cbn. rewrite String.eqb_refl. reflexivity.
  - unfold ret. do 2 eexists. split; [reflexivity|].
    cbn [journal withStorage withReads]. rewrite Hj, <- !app_assoc.
    split; [reflexivity|]. cbn. rewrite String.eqb_refl. reflexivity.
Qed.

(** With a kind that is none of the four, the campaign is marked
    [running] and then [failed]. *)
Lemma lifecycle_unknown_kind fuel id url type duration E w :
  (forall k, fault E k = false) ->
  (forall p, type <> typeOf p) ->
  exists w' es,
    runBenchmark fuel id url type duration E w = Returned tt w' /\
    journal w' = journal w ++ es /\
    statusWrites id es = ["running"; "failed"]%string.
Proof.
  intros Hnf Hty. unfold runBenchmark, tryCatch.
  erewrite bind_Returned by reflexivity.
  erewrite bind_Returned by (apply statement_ok, Hnf).
  assert (String.eqb type "response_time" = false) as ->
    by (apply String.eqb_neq, (Hty ResponseTime)).
  assert (String.eqb type "load_test" = false) as ->
    by (apply String.eqb_neq, (Hty LoadTest)).
  assert (String.eqb type "stress_test" = false) as ->
    by (apply String.eqb_neq, (Hty StressTest)).
  assert (String.eqb type "reliability_test" = false) as ->
    by (apply String.eqb_neq, (Hty ReliabilityTest)).
  unfold bind at 1, throw at 1.
  erewrite bind_Returned by reflexivity.
  erewrite bind_Returned by reflexivity.
  unfold storage.updateBenchmark. cbn [storage.noKeys setStatus].
  rewrite statement_ok by apply Hnf.
  do 2 eexists. split; [reflexivity|].
  cbn [journal withStorage withReads]. rewrite <- !app_assoc.
  split; [reflexivity|]. cbn. rewrite String.eqb_refl. reflexivity.
Qed.

End Lifecycle.

(** C5. When the performance record cannot be written, the campaign has
    already been marked completed, and the [catch] branch marks it
    failed: three status writes, the last one after a terminal state,
    leaving a failed campaign that carries a result. *)
Theorem campaign_marked_failed_after_completed :
  let r := runBenchmark 101 "b1" "u" "response_time" 0
             (failing [3%nat] steady) (boot oneCampaign) in
  statusWrites "b1" (journal (worldOf r)) = ["running"; "completed"; "failed"]%string /\
  status <$> benchmarks (db (worldOf r)) !! "b1"%string = Some "failed"%string /\
  totalRequests <$> (benchmarks (db (worldOf r)) !! "b1"%string ≫= result) = Some 5%nat /\
  terminal "completed" = true.
Proof. vm_compute. repeat split. Qed.

(* ===================================================================== *)
(** ** Further properties of the engine and the monitor *)
(* ===================================================================== *)

Import BenchmarkService.

(** *** The aggregation as a reduction of the samples *)

Section Reduction.

Lemma fold_add xs : forall a, fold_left Z.add xs a = a + sum xs.
Proof.
  unfold sum. induction xs as [|x xs IH]; intros a; cbn [fold_left]; [lia|].
  rewrite (IH (a + x)), (IH (0 + x)). lia.
Qed.

Lemma sum_cons x xs : sum (x :: xs) = x + sum xs.
Proof. unfold sum at 1. simpl. apply fold_add. Qed.

Lemma sum_Permutation xs ys : xs ≡ₚ ys -> sum xs = sum ys.
Proof.
  induction 1 as [|x xs ys _ IH|x y xs|xs ys zs _ IH1 _ IH2].
  - reflexivity.
  - rewrite !sum_cons. lia.
  - rewrite !sum_cons. lia.
  - congruence.
Qed.

Lemma latencies_Permutation samples samples' :
  samples ≡ₚ samples' -> latencies samples ≡ₚ latencies samples'.
Proof. intros H. unfold latencies. now rewrite H. Qed.

Lemma failures_Permutation samples samples' :
  samples ≡ₚ samples' -> failures samples ≡ₚ failures samples'.
Proof. intros H. unfold failures. now rewrite H. Qed.

(** The result is a function of the sum and number of the recorded
    response times and of the two counters. *)
Lemma aggregate_ext p t t' :
  sum (responses t) = sum (responses t') ->
  length (responses t) = length (responses t') ->
  successCount t = successCount t' ->
  failCount t = failCount t' ->
  aggregate p t = aggregate p t'.
Proof.
  intros Hs Hl Hc Hf. destruct p; simpl;
    unfold aggregateRounded, aggregateExact, mean; now rewrite Hs, Hl, Hc, Hf.
Qed.

End Reduction.

(** X1. The result of a campaign does not depend on the order in which
    its samples were recorded: two sample sequences that are permutations
    of one another aggregate to the same result, in every profile. *)
Theorem aggregate_order_independent p samples samples' :
  samples ≡ₚ samples' ->
  aggregate p (accumulate samples) = aggregate p (accumulate samples').
Proof.
  intros H. apply aggregate_ext.
  - rewrite !accumulate_responses. apply sum_Permutation. now apply latencies_Permutation.
  - rewrite !accumulate_responses. now rewrite (latencies_Permutation _ _ H).
  - rewrite !accumulate_successCount. now rewrite (latencies_Permutation _ _ H).
  - rewrite !accumulate_failCount. now rewrite (failures_Permutation _ _ H).
Qed.

Lemma aggregate_order_independent_witness :
  let a := mkSample 30 (Responded true 200) in
  let b := mkSample 0 Rejected in
  let c := mkSample 75 (Responded true 204) in
  [a; b; c] ≡ₚ [c; a; b] /\
  aggregate LoadTest (accumulate [a; b; c]) = aggregate LoadTest (accumulate [c; a; b]).
Proof.
  intros a b c.
  assert ([a; b; c] ≡ₚ [c; a; b]) as H.
  { change [c; a; b] with ([c] ++ [a; b]). change [a; b; c] with ([a; b] ++ [c]).
    apply Permutation_app_comm. }
  split; [exact H|]. apply (aggregate_order_independent LoadTest _ _ H).
Defined.

(** *** Ranges of the figures of a result *)

Section Ranges.

Lemma ofNat_nonneg n : (0 <= ofNat n)%Q.
Proof. unfold ofNat. change 0%Q with (inject_Z 0). rewrite <- Zle_Qle. lia. Qed.

Lemma ofNat_le a b : (a <= b)%nat -> (ofNat a <= ofNat b)%Q.
Proof. intros H. unfold ofNat. rewrite <- Zle_Qle. lia. Qed.

Lemma share_range a b :
  (0 < b)%nat -> (a <= b)%nat -> (0 <= ofNat a / ofNat b * 100 <= 100)%Q.
Proof.
  intros Hb Hab. pose proof (ofNat_pos _ Hb) as Hp.
  pose proof (ofNat_nonneg a) as Ha. pose proof (ofNat_le _ _ Hab) as Hle.
  assert (0 <= ofNat a / ofNat b)%Q as H0 by (apply Qle_shift_div_l; [exact Hp | lra]).
  assert (ofNat a / ofNat b <= 1)%Q as H1 by (apply Qle_shift_div_r; [exact Hp | lra]).
  split; lra.
Qed.

Lemma Math_round_le x y : (x <= y)%Q -> Math_round x <= Math_round y.
Proof. intros H. unfold Math_round. apply Qfloor_resp_le. lra. Qed.

Lemma rounded_share_range a b :
  (0 < b)%nat -> (a <= b)%nat ->
  (0 <= inject_Z (Math_round (ofNat a / ofNat b * 100 * 100)) / 100 <= 100)%Q.
Proof.
  intros Hb Hab. destruct (share_range a b Hb Hab) as [H0 H1].
  assert (0 <= Math_round (ofNat a / ofNat b * 100 * 100) <= 10000) as [Hl Hu].
  { split.
    - rewrite <- (Math_round_Z 0). apply Math_round_le. change (inject_Z 0) with 0%Q. lra.
    - rewrite <- (Math_round_Z 10000). apply Math_round_le.
      change (inject_Z 10000) with 10000%Q. lra. }
  rewrite Zle_Qle in Hl, Hu. change (inject_Z 0) with 0%Q in Hl.
  change (inject_Z 10000) with 10000%Q in Hu.
  set (z := inject_Z (Math_round _)) in *.
  unfold Qdiv. change (/ 100)%Q with (1 # 100)%Q. split; lra.
Qed.

Lemma aggregate_rates_range p t :
  (0 <= successRate (aggregate p t) <= 100)%Q /\
  (0 <= errorRate (aggregate p t) <= 100)%Q.
Proof.
  destruct p; cbn [aggregate aggregateExact aggregateRounded successRate errorRate];
    destruct (0 <? successCount t + failCount t)%nat eqn:Hb;
    try (split; split; lra);
    apply Nat.ltb_lt in Hb;
    (split; [apply rounded_share_range || apply share_range
            | apply rounded_share_range || apply share_range]); lia.
Qed.

Lemma sum_bounds lo hi xs :
  Forall (fun x => lo <= x <= hi) xs ->
  lo * Z.of_nat (length xs) <= sum xs <= hi * Z.of_nat (length xs).
Proof.
  induction 1 as [|x xs Hx _ IH]; [unfold sum; simpl; lia|].
  rewrite sum_cons. cbn [length]. lia.
Qed.

Lemma mean_bounds lo hi xs :
  xs <> [] -> Forall (fun x => lo <= x <= hi) xs ->
  (inject_Z lo <= mean xs <= inject_Z hi)%Q.
Proof.
  intros Hne Hall. pose proof (sum_bounds lo hi xs Hall) as [Hl Hu].
  assert (0 < length xs)%nat as Hlen by (destruct xs; [congruence | simpl; lia]).
  pose proof (ofNat_pos _ Hlen) as Hp. unfold mean. split.
  - apply Qle_shift_div_l; [exact Hp|]. unfold ofNat.
    rewrite <- inject_Z_mult, <- Zle_Qle. exact Hl.
  - apply Qle_shift_div_r; [exact Hp|]. unfold ofNat.
    rewrite <- inject_Z_mult, <- Zle_Qle. exact Hu.
Qed.

End Ranges.

(** X2. A profile never throws, and in every result it returns both
    rates lie between 0 and 100. *)
Theorem rates_within_bounds p fuel url duration E w :
  match run p fuel url duration E w with
  | Returned r _ =>
      (0 <= successRate r <= 100)%Q /\ (0 <= errorRate r <= 100)%Q
  | Thrown _ => False
  | Starved _ => True
  end.
Proof.
  pose proof (run_spec p fuel url duration E w) as H.
  destruct (run p fuel url duration E w) as [r w'| |]; auto.
  destruct H as (samples & ->). apply aggregate_rates_range.
Qed.

(** X3. When a campaign has a successful sample, the average latency of
    its result lies between the smallest and the largest elapsed time of
    its successful samples, in every profile (the latency probe's
    rounding to an integer included). *)
Theorem average_between_extremes p samples lo hi :
  latencies samples <> [] ->
  Forall (fun x => lo <= x <= hi) (latencies samples) ->
  (inject_Z lo <= averageResponseTime (aggregate p (accumulate samples)) <= inject_Z hi)%Q.
Proof.
  intros Hne Hall. pose proof (mean_bounds lo hi _ Hne Hall) as [Hl Hu].
  assert ((0 <? length (latencies samples))%nat = true) as Hb.
  { apply Nat.ltb_lt. destruct (latencies samples); [congruence | simpl; lia]. }
  destruct p; cbn [aggregate aggregateExact aggregateRounded averageResponseTime];
    rewrite accumulate_responses, Hb; try (split; assumption).
  split; rewrite <- Zle_Qle.
  - rewrite <- (Math_round_Z lo). now apply Math_round_le.
  - rewrite <- (Math_round_Z hi). now apply Math_round_le.
Qed.

Lemma average_between_extremes_witness :
  let samples := [mkSample 40 (Responded true 200); mkSample 9000 Rejected;
                  mkSample 95 (Responded true 200); mkSample 7 (Responded false 500)] in
  latencies samples <> [] /\
  Forall (fun x => 40 <= x <= 95) (latencies samples) /\
  (inject_Z 40 <= averageResponseTime (aggregate ResponseTime (accumulate samples))
   <= inject_Z 95)%Q.
Proof.
  intros samples.
  assert (latencies samples <> []) as Hne by (vm_compute; discriminate).
  assert (Forall (fun x => 40 <= x <= 95) (latencies samples)) as Hall.
  { change (latencies samples) with [40; 95]. repeat constructor; lia. }
  split; [exact Hne|]. split; [exact Hall|].
  apply (average_between_extremes ResponseTime samples 40 95 Hne Hall).
Defined.

(** *** The performance score of a result *)

(** X4. The performance score of a result is a multiple of 10 between 30
    and 100, and it does not increase when the average latency and the
    error rate do not decrease. *)
Theorem score_range_and_monotone avg err avg' err' s s' n n' m m' k k' :
  let score := calculatePerformanceScore (mkResult avg s err n m k) in
  let score' := calculatePerformanceScore (mkResult avg' s' err' n' m' k') in
  30 <= score <= 100 /\ (10 | score) /\
  ((avg <= avg')%Q -> (err <= err')%Q -> score' <= score).
Proof.
  unfold calculatePerformanceScore. cbn [averageResponseTime errorRate].
  repeat match goal with
         | |- context [Qgtb ?a ?b] =>
             let H := fresh "H" in
             destruct (Qgtb a b) eqn:H;
             [apply Qgtb_true in H | apply Qgtb_false in H]
         end;
    (split; [lia|]); (split; [apply Z.mod_divide; [lia | reflexivity]|]);
    intros Ha He; first [lia | exfalso; lra].
Qed.

Lemma score_range_and_monotone_witness :
  (120 <= 640)%Q /\ (0 <= 25 # 10)%Q /\
  calculatePerformanceScore (mkResult 640 (975 # 10) (25 # 10) 40 39 1)
  <= calculatePerformanceScore (mkResult 120 100 0 40 40 0).
Proof.
  assert (120 <= 640)%Q as Ha by (vm_compute; discriminate).
  assert (0 <= 25 # 10)%Q as He by (vm_compute; discriminate).
  split; [exact Ha|]. split; [exact He|].
  apply (score_range_and_monotone 120 0 640 (25 # 10) 100 (975 # 10) 40 40 40 39 0 1);
    assumption.
Defined.

Import ReliabilityService.

(** *** The two scores of the monitor *)

(** X5. Both scores of a health check are 0 when the target is offline.
    When it is online the SLA compliance is between 50 and 100 and the
    performance score between 60 and 100, and neither increases with the
    response time. *)
Theorem monitor_scores result result' :
  (isOnline result = false ->
   calculateSLACompliance result = 0 /\ calculatePerformanceScore result = 0) /\
  (isOnline result = true ->
   50 <= calculateSLACompliance result <= 100 /\
   60 <= calculatePerformanceScore result <= 100) /\
  (isOnline result = true -> isOnline result' = true ->
   responseTime result <= responseTime result' ->
   calculateSLACompliance result' <= calculateSLACompliance result /\
   calculatePerformanceScore result' <= calculatePerformanceScore result).
Proof.
  unfold calculateSLACompliance, calculatePerformanceScore.
  repeat split; intros;
    repeat match goal with H : isOnline _ = _ |- _ => rewrite H; clear H end;
    cbn [negb];
    repeat match goal with
           | |- context [?a >? ?b] =>
               let H := fresh "H" in destruct (Z.gtb_spec a b) as [H|H]
           end; lia.
Qed.

Lemma monitor_scores_witness :
  let fast := mkUptime 100 180 true (Some 200) in
  let slow := mkUptime 100 2400 true (Some 200) in
  isOnline fast = true /\ isOnline slow = true /\
  responseTime fast <= responseTime slow /\
  calculateSLACompliance slow <= calculateSLACompliance fast /\
  calculatePerformanceScore slow <= calculatePerformanceScore fast.
Proof.
  intros fast slow.
  assert (isOnline fast = true) as H1 by reflexivity.
  assert (isOnline slow = true) as H2 by reflexivity.
  assert (responseTime fast <= responseTime slow) as H3 by (simpl; lia).
  split; [exact H1|]. split; [exact H2|]. split; [exact H3|].
  apply (proj2 (proj2 (monitor_scores fast slow)) H1 H2 H3).
Defined.

(** *** What a tick reports *)

Section Tick.

(** The result of a tick, by the storage statements that throw. *)
Lemma checkReliability_ends applicationId url E w :
  let r := checkReliability applicationId url E w in
  if fault E (calls w) then
    if fault E (S (calls w)) then exists w', r = Thrown w' else exists w', r = Returned tt w'
  else if fault E (S (calls w)) then
    if fault E (S (S (calls w))) then exists w', r = Thrown w'
    else exists w', r = Returned tt w'
  else exists w', r = Returned tt w'.
Proof.
  destruct (performUptimeCheck_returns url E w)
    as (result & w' & Hrun & Hcalls & _ & _ & _).
  unfold checkReliability, tryCatch, storage.createReliabilityMetrics,
    storage.createPerformanceMetrics, statement, bind, console_error, ret.
  rewrite Hrun, Hcalls.
  destruct (fault E (calls w)) eqn:F0; simpl; rewrite ?F0;
    destruct (fault E (S (calls w))) eqn:F1; simpl; rewrite ?F1;
    try (destruct (fault E (S (S (calls w)))) eqn:F2; simpl; rewrite ?F2); eauto.
Qed.

End Tick.

(** X6. A tick never runs out of control: it throws only when the write
    of the failure record in its [catch] branch throws, and that write is
    then its last storage call; otherwise it returns and its last storage
    call succeeded. *)
Theorem tick_error_boundary applicationId url E w :
  let r := checkReliability applicationId url E w in
  match r with
  | Returned _ _ => threw <$> last (issued w r) = Some false
  | Thrown _ =>
      last (issued w r)
      = Some (mkEntry (CreateReliabilityMetrics (failureMetrics applicationId)) true)
  | Starved _ => False
  end.
Proof.
  intros r. pose proof (checkReliability_ends applicationId url E w) as Hend.
  destruct (checkReliability_effect applicationId url E w) as (result & _ & H).
  fold r in Hend, H. cbv zeta in Hend, H.
  destruct (fault E (calls w)), (fault E (S (calls w)));
    try destruct (fault E (S (S (calls w))));
    destruct Hend as (w' & Hr); injection H as Hi _ _; rewrite Hr in *; rewrite Hi;
    reflexivity.
Qed.

(** X7. When neither write of a tick throws, the tick leaves one
    reliability record and one performance record that tell the same
    story. For a target that answered with an ok status: uptime 100, no
    outage, error rate 0, the measured response time and a score of at
    least 60. For a target that answered with another status or did not
    answer: the very record of the [catch] branch (uptime 0, SLA
    compliance 0, one outage), with uptime 0, error rate 100 and score
    0 in the performance record. *)
Theorem tick_reports_availability applicationId url E w :
  fault E (calls w) = false -> fault E (S (calls w)) = false ->
  let r := checkReliability applicationId url E w in
  exists rel perf,
    newReliability w r = [rel] /\ newPerformance w r = [perf] /\
    rm_applicationId rel = applicationId /\ pm_applicationId perf = applicationId /\
    match net E (sent w) with
    | Responded true _ =>
        rm_uptime rel = "100"%string /\ rm_outageCount rel = 0 /\
        pm_uptime perf = 100%Q /\ pm_errorRate perf = 0%Q /\
        pm_responseTime perf = inject_Z (clock E (S (reads w)) - clock E (reads w)) /\
        60 <= pm_performanceScore perf <= 100
    | Responded false _ | Rejected =>
        rel = failureMetrics applicationId /\
        pm_uptime perf = 0%Q /\ pm_errorRate perf = 100%Q /\
        pm_performanceScore perf = 0
    end.
Proof.
  intros F0 F1 r.
  destruct (performUptimeCheck_returns url E w)
    as (result & w' & Hrun & _ & _ & _ & Hres).
  destruct (checkReliability_effect applicationId url E w) as (result' & Hout & H).
  rewrite Hrun in Hout. injection Hout as <-.
  fold r in H. cbv zeta in H. rewrite F0, F1 in H. injection H as _ Hrel Hperf.
  exists (reliabilityMetricsOf applicationId result),
         (performanceMetricsOf applicationId result).
  split; [exact Hrel|]. split; [exact Hperf|]. split; [reflexivity|]. split; [reflexivity|].
  destruct (net E (sent w)) as [[|] status|]; subst result.
  - repeat split; try reflexivity;
      destruct (proj1 (proj2 (monitor_scores
        (mkUptime 100 (clock E (S (reads w)) - clock E (reads w)) true (Some status))
        (mkUptime 0 0 false None))) eq_refl) as [_ Hs]; apply Hs.
  - repeat split; reflexivity.
  - repeat split; reflexivity.
Qed.

Lemma tick_reports_availability_witness :
  let w := boot noStorage in
  fault refusing (calls w) = false /\ fault refusing (S (calls w)) = false /\
  newReliability w (checkReliability "app1" "u" refusing w)
    = [failureMetrics "app1"].
Proof.
  intros w.
  assert (fault refusing (calls w) = false) as F0 by reflexivity.
  assert (fault refusing (S (calls w)) = false) as F1 by reflexivity.
  split; [exact F0|]. split; [exact F1|].
  destruct (tick_reports_availability "app1" "u" refusing w F0 F1)
    as (rel & perf & Hrel & _ & _ & _ & Hcase).
  simpl in Hcase. destruct Hcase as [-> _]. exact Hrel.
Defined.

Import BenchmarkService.

(** *** Where a campaign ends *)

Section Campaign.

Lemma bind_Thrown {A B} (m : M A) (k : A -> M B) E w w' :
  m E w = Thrown w' -> bind m k E w = Thrown w'.
Proof. unfold bind. now intros ->. Qed.

Lemma statement_fails {A} c effect (value : Storage -> A) E w :
  fault E (calls w) = true ->
  statement c effect value E w =
  Thrown (withStorage (S (calls w)) (db w) (journal w ++ [mkEntry c true]) w).
Proof. unfold statement. now intros ->. Qed.

Lemma quiet_profile fuel url type duration :
  quiet
    (if String.eqb type "response_time" then runResponseTimeTest fuel url duration
     else if String.eqb type "load_test" then runLoadTest fuel url duration
     else if String.eqb type "stress_test" then runStressTest fuel url duration
     else if String.eqb type "reliability_test" then runReliabilityTest fuel url duration
     else throw).
Proof.
  repeat apply quiet_if.
  - apply (quiet_run ResponseTime).
  - apply (quiet_run LoadTest).
  - apply (quiet_run StressTest).
  - apply (quiet_run ReliabilityTest).
  - apply quiet_throw.
Qed.

(** The [catch] branch writes [failed], and throws only if that write
    does. *)
Lemma handler_ends id E w :
  let handler :=
    (console_error ;;;
     completedAt <- dateNow ;;
     storage.updateBenchmark id
       (mkPatch (Some "failed"%string) None (Some completedAt) None)) in
  let e b := mkEntry (UpdateBenchmark id
               (mkPatch (Some "failed"%string) None (Some (clock E (reads w))) None)) b in
  (exists w', handler E w = Returned tt w' /\ journal w' = journal w ++ [e false]) \/
  (exists w', handler E w = Thrown w' /\ journal w' = journal w ++ [e true]).
Proof.
  cbv zeta. unfold console_error.
  erewrite bind_Returned by reflexivity.
  erewrite bind_Returned by reflexivity.
  unfold storage.updateBenchmark. cbn [storage.noKeys setStatus].
  destruct (fault E (calls w)) eqn:F.
  - right. rewrite statement_fails by exact F. eexists. split; reflexivity.
  - left. rewrite statement_ok by exact F. eexists. split; reflexivity.
Qed.

(** The [try] block, when it returns, has written [completed] last. *)
Lemma body_ends fuel id url type duration E w :
  let body :=
    (startedAt <- dateNow ;;
     storage.updateBenchmark id
       (mkPatch (Some "running"%string) (Some startedAt) None None) ;;;
     result <-
       (if String.eqb type "response_time" then runResponseTimeTest fuel url duration
        else if String.eqb type "load_test" then runLoadTest fuel url duration
        else if String.eqb type "stress_test" then runStressTest fuel url duration
        else if String.eqb type "reliability_test" then runReliabilityTest fuel url duration
        else throw) ;;
     completedAt <- dateNow ;;
     storage.updateBenchmark id
       (mkPatch (Some "completed"%string) None (Some completedAt) (Some result)) ;;;
     benchmark <- storage.getBenchmarkById id ;;
     match benchmark with
     | Some benchmark =>
         let performanceScore := calculatePerformanceScore result in
         storage.createPerformanceMetrics
           {| pm_applicationId := applicationId benchmark;
              pm_responseTime := averageResponseTime result;
              pm_uptime := successRate result;
              pm_errorRate := errorRate result;
              pm_performanceScore := performanceScore |}
     | None => ret tt
     end) in
  match body E w with
  | Returned _ w' =>
      exists es, journal w' = journal w ++ es /\
                 last (statusWrites id es) = Some "completed"%string
  | _ => True
  end.
Proof.
  cbv zeta.
  erewrite bind_Returned by reflexivity.
  unfold storage.updateBenchmark at 1. cbn [storage.noKeys setStatus].
  destruct (fault E (calls w)) eqn:F0.
  { erewrite bind_Thrown; [exact I|]. apply statement_fails. exact F0. }
  erewrite bind_Returned by (apply statement_ok; exact F0).
  match goal with |- context [bind ?prof _ E ?w2] =>
    destruct (quiet_profile fuel url type duration E w2) as (Hj & Hc & _);
    destruct (prof E w2) as [res w3|w3|w3] eqn:Hprof end.
  2: { erewrite bind_Thrown by eassumption. exact I. }
  2: { erewrite bind_Starved by eassumption. exact I. }
  erewrite bind_Returned by eassumption.
  erewrite bind_Returned by reflexivity.
  cbn [worldOf] in Hj, Hc. cbn [journal calls withStorage withReads] in Hj, Hc.
  unfold storage.updateBenchmark at 1. cbn [storage.noKeys setStatus].
  destruct (fault E (S (calls w))) eqn:F1.
  { erewrite bind_Thrown; [exact I|]. apply statement_fails.
    cbn [calls withReads]. now rewrite Hc. }
  erewrite bind_Returned
    by (apply statement_ok; cbn [calls withReads]; rewrite Hc; exact F1).
  unfold storage.getBenchmarkById.
  destruct (fault E (S (S (calls w)))) eqn:F2.
  { erewrite bind_Thrown; [exact I|]. apply statement_fails.
    cbn [calls withStorage withReads]. now rewrite Hc. }
  erewrite bind_Returned
    by (apply statement_ok; cbn [calls withStorage withReads]; rewrite Hc; exact F2).
  match goal with |- context [benchmarks ?d !! id] => destruct (benchmarks d !! id) end.
  - unfold storage.createPerformanceMetrics, statement.
    cbn [calls withStorage withReads]. rewrite Hc.
    destruct (fault E (S (S (S (calls w))))); [exact I|].
    eexists. cbn [journal withStorage withReads]. rewrite Hj, <- !app_assoc.
    split; [reflexivity|]. cbn. rewrite String.eqb_refl. reflexivity.
  - unfold ret. eexists. cbn [journal withStorage withReads]. rewrite Hj, <- !app_assoc.
    split; [reflexivity|]. cbn. rewrite String.eqb_refl. reflexivity.
Qed.

End Campaign.

(** X8. [runBenchmark] always ends on a status. When it returns, the last
    status it wrote to its campaign is [completed] or [failed]; it throws
    only when its own write of [failed] throws, and that write is then
    the last storage call. *)
Theorem campaign_error_boundary fuel id url type duration E w :
  match runBenchmark fuel id url type duration E w with
  | Returned _ w' =>
      exists s, last (statusWrites id (journal w')) = Some s /\ terminal s = true
  | Thrown w' =>
      exists t,
        last (journal w')
        = Some (mkEntry (UpdateBenchmark id
                           (mkPatch (Some "failed"%string) None (Some t) None)) true)
  | Starved _ => True
  end.
Proof.
  pose proof (body_ends fuel id url type duration E w) as Hbody.
  unfold runBenchmark, tryCatch. cbv zeta in Hbody.
  match goal with |- context [match ?b E w with _ => _ end] =>
    destruct (b E w) as [[] w1|w1|w1] end.
  - destruct Hbody as (es & -> & Hlast). exists "completed"%string.
    split; [|reflexivity]. rewrite statusWrites_app, last_app, Hlast. reflexivity.
  - destruct (handler_ends id E w1) as [(w' & HH & Hj)|(w' & HH & Hj)];
      cbv zeta in HH; rewrite HH.
    + exists "failed"%string. split; [|reflexivity].
      rewrite Hj, statusWrites_app, last_app. cbn. rewrite String.eqb_refl. reflexivity.
    + eexists. rewrite Hj, last_snoc. reflexivity.
  - exact I.
Qed.



(** X10. When no storage call throws, a campaign whose kind is none of
    the four is marked running and then failed without a single request
    being issued: its row keeps whatever result it had, and no
    performance record is written. *)
Theorem unknown_kind_fails fuel id url type duration E w :
  (forall k, fault E k = false) ->
  (forall p, type <> typeOf p) ->
  exists w',
    runBenchmark fuel id url type duration E w = Returned tt w' /\
    sent w' = sent w /\
    statusWrites id (issued w (Returned tt w')) = ["running"; "failed"]%string /\
    benchmarks (db w') !! id
      = (fun b => mkBenchmark (applicationId b) "failed"
                    (Some (clock E (reads w))) (Some (clock E (S (reads w)))) (result b))
        <$> benchmarks (db w) !! id /\
    performanceMetrics (db w') = performanceMetrics (db w).
Proof.
  intros Hnf Hty. unfold runBenchmark, tryCatch.
  erewrite bind_Returned by reflexivity.
  erewrite bind_Returned by (apply statement_ok, Hnf).
  assert (String.eqb type "response_time" = false) as ->
    by (apply String.eqb_neq, (Hty ResponseTime)).
  assert (String.eqb type "load_test" = false) as ->
    by (apply String.eqb_neq, (Hty LoadTest)).
  assert (String.eqb type "stress_test" = false) as ->
    by (apply String.eqb_neq, (Hty StressTest)).
  assert (String.eqb type "reliability_test" = false) as ->
    by (apply String.eqb_neq, (Hty ReliabilityTest)).
  unfold bind at 1, throw at 1.
  erewrite bind_Returned by reflexivity.
  erewrite bind_Returned by reflexivity.
  unfold storage.updateBenchmark. cbn [storage.noKeys setStatus].
  rewrite statement_ok by apply Hnf.
  eexists. split; [reflexivity|]. split; [reflexivity|].
  unfold issued. cbn [worldOf journal db withStorage withReads benchmarks performanceMetrics reads].
  rewrite <- !app_assoc, drop_app_length.
  split; [cbn; rewrite String.eqb_refl; reflexivity|]. split; [|reflexivity].
  rewrite !lookup_alter, !decide_True by reflexivity.
  destruct (benchmarks (db w) !! id); reflexivity.
Qed.

Lemma unknown_kind_fails_witness :
  (forall k, fault steady k = false) /\
  (forall p, "soak_test"%string <> typeOf p) /\
  exists w',
    runBenchmark 101 "b1" "u" "soak_test" 30 steady (boot oneCampaign) = Returned tt w' /\
    sent w' = 0%nat.
Proof.
  assert (forall k, fault steady k = false) as Hnf by reflexivity.
  assert (forall p, "soak_test"%string <> typeOf p) as Hty by (intros []; discriminate).
  split; [exact Hnf|]. split; [exact Hty|].
  destruct (unknown_kind_fails 101 "b1" "u" "soak_test" 30 steady (boot oneCampaign) Hnf Hty)
    as (w' & Hr & Hs & _).
  exists w'. split; [exact Hr | exact Hs].
Defined.

(** *** Requests issued and requests counted *)

Section Counting.

Lemma counted_tally ok rt t : counted (tally ok rt t) = S (counted t).
Proof. destruct ok; unfold counted; simpl; lia. Qed.

Lemma counted_miss t : counted (miss t) = S (counted t).
Proof. unfold counted; simpl; lia. Qed.

Lemma probeOnce_counts t rc E w :
  exists t' w', probeOnce t rc E w = Returned (t', S rc) w' /\
                counted t' = S (counted t) /\ sent w' = S (sent w).
Proof.
  unfold probeOnce, tryCatch, bind, dateNow, fetch. simpl.
  destruct (net E (sent w)) as [ok st|]; simpl; do 2 eexists;
    (split; [reflexivity|]); split; auto using counted_tally, counted_miss.
Qed.

Lemma responseTimeLoop_counts fuel : forall endTime t rc E w,
  match responseTimeLoop fuel endTime t rc E w with
  | Returned t' w' => (counted t' + sent w = counted t + sent w')%nat
  | _ => True
  end.
Proof.
  induction fuel as [|fuel IH]; intros endTime t rc E w; simpl; [exact I|].
  unfold bind at 1. unfold dateNow at 1.
  destruct (_ || _); [|unfold ret; simpl; lia].
  unfold bind at 1.
  destruct (probeOnce_counts t rc E (withReads (S (reads w)) w)) as (t' & w' & -> & Hc & Hs).
  simpl in Hs. simpl. destruct (100 <? S rc)%nat; [unfold ret; simpl; lia|].
  specialize (IH endTime t' (S rc) E w').
  destruct (responseTimeLoop fuel endTime t' (S rc) E w'); auto. lia.
Qed.

Lemma sampleOnce_counts t E w :
  exists t' w', sampleOnce t E w = Returned t' w' /\
                counted t' = S (counted t) /\ sent w' = S (sent w).
Proof.
  unfold sampleOnce, tryCatch, bind, dateNow, fetch. simpl.
  destruct (net E (sent w)) as [ok st|]; simpl; do 2 eexists;
    (split; [reflexivity|]); split; auto using counted_tally, counted_miss.
Qed.

Lemma reliabilityLoop_counts fuel : forall endTime t E w,
  match reliabilityLoop fuel endTime t E w with
  | Returned t' w' => (counted t' + sent w = counted t + sent w')%nat
  | _ => True
  end.
Proof.
  induction fuel as [|fuel IH]; intros endTime t E w; simpl; [exact I|].
  unfold bind at 1. unfold dateNow at 1.
  destruct (_ <? _); [|unfold ret; simpl; lia].
  unfold bind at 1.
  destruct (sampleOnce_counts t E (withReads (S (reads w)) w)) as (t' & w' & -> & Hc & Hs).
  simpl in Hs. unfold bind at 1, sleep at 1, ret at 1.
  specialize (IH endTime t' E w').
  destruct (reliabilityLoop fuel endTime t' E w'); auto. lia.
Qed.

Lemma inFlight_cons wk ws :
  inFlight (wk :: ws)
  = ((match wk with AwaitingTimer => 0 | _ => 1 end) + inFlight ws)%nat.
Proof.
  unfold inFlight. rewrite filter_cons.
  destruct wk; case_decide; simpl in *; congruence.
Qed.

Lemma inFlight_nil : inFlight [] = 0%nat.
Proof. reflexivity. Qed.

Lemma advance_counts deadline E w :
  exists wk w', advance deadline E w = Returned wk w' /\
    (sent w' = sent w + inFlight (option_list wk))%nat /\
    match wk with Some AwaitingTimer => False | _ => True end.
Proof.
  unfold advance, bind, dateNow, fetch, ret. simpl.
  destruct (Qltb _ _); do 2 eexists; (split; [reflexivity|]);
    simpl (option_list _); cbn [sent withReads withSent];
    rewrite ?inFlight_cons, ?inFlight_nil; split; auto; lia.
Qed.

Lemma inFlight_app ws ws' : inFlight (ws ++ ws') = (inFlight ws + inFlight ws')%nat.
Proof. unfold inFlight. now rewrite filter_app, length_app. Qed.

Lemma inFlight_insert ws i wk wk' :
  ws !! i = Some wk ->
  (inFlight (<[i := wk']> ws) + inFlight [wk] = inFlight ws + inFlight [wk'])%nat.
Proof.
  revert i. induction ws as [|x ws IH]; intros [|i] H; try discriminate.
  - injection H as ->. change (<[0%nat:=wk']> (wk :: ws)) with (wk' :: ws).
    rewrite !inFlight_cons, ?inFlight_nil. destruct wk, wk'; lia.
  - change (<[S i:=wk']> (x :: ws)) with (x :: <[i:=wk']> ws).
    rewrite !inFlight_cons, ?inFlight_nil in *. specialize (IH i H).
    rewrite ?inFlight_cons, ?inFlight_nil in IH. destruct x, wk, wk'; lia.
Qed.

Lemma inFlight_delete ws i wk :
  ws !! i = Some wk -> (inFlight (delete i ws) + inFlight [wk] = inFlight ws)%nat.
Proof.
  revert i. induction ws as [|x ws IH]; intros [|i] H; try discriminate.
  - injection H as ->. change (delete 0%nat (wk :: ws)) with ws.
    rewrite !inFlight_cons, ?inFlight_nil. destruct wk; lia.
  - change (delete (S i) (x :: ws)) with (x :: delete i ws).
    rewrite !inFlight_cons, ?inFlight_nil in *. specialize (IH i H).
    rewrite ?inFlight_cons, ?inFlight_nil in IH. destruct x, wk; lia.
Qed.

Lemma resume_counts deadline wk t E w :
  exists wk' t' w', resume deadline wk t E w = Returned (wk', t') w' /\
    (counted t' + inFlight (option_list wk') + sent w
     = counted t + inFlight [wk] + sent w')%nat.
Proof.
  destruct wk as [startTime [ok st|]|]; simpl.
  - unfold tryCatch, bind, await, ret, dateNow. simpl.
    do 3 eexists. split; [reflexivity|]. rewrite counted_tally.
    simpl (option_list _). cbn [sent withReads]. rewrite ?inFlight_cons, ?inFlight_nil. lia.
  - unfold tryCatch, bind, await, throw, ret. simpl.
    do 3 eexists. split; [reflexivity|]. rewrite counted_miss.
    simpl (option_list _). rewrite ?inFlight_cons, ?inFlight_nil. lia.
  - unfold bind. destruct (advance_counts deadline E w) as (wk & w' & -> & Hs & _).
    unfold ret. do 3 eexists. split; [reflexivity|].
    rewrite ?inFlight_cons, ?inFlight_nil. lia.
Qed.

Lemma eventLoop_counts fuel : forall deadline ws t E w,
  match eventLoop fuel deadline ws t E w with
  | Returned t' w' => (counted t' + sent w = counted t + inFlight ws + sent w')%nat
  | _ => True
  end.
Proof.
  induction fuel as [|fuel IH]; intros deadline ws t E w.
  - destruct ws; simpl; [unfold ret; rewrite inFlight_nil; lia | exact I].
  - destruct ws as [|wk0 ws]; [simpl; unfold ret; rewrite inFlight_nil; lia|].
    cbn [eventLoop]. unfold bind at 1. unfold pick at 1.
    set (i := (sched E (turns w) mod length (wk0 :: ws))%nat).
    destruct ((wk0 :: ws) !! i) as [wk|] eqn:Hwk.
    2: { apply lookup_ge_None in Hwk. subst i.
         pose proof (Nat.mod_upper_bound (sched E (turns w)) (length (wk0 :: ws))).
         simpl in *. lia. }
    unfold bind at 1.
    destruct (resume_counts deadline wk t E (withTurns (S (turns w)) w))
      as (wk' & t' & w' & -> & Hc).
    simpl in Hc. simpl. destruct wk' as [wk'|].
    + pose proof (inFlight_insert _ _ _ wk' Hwk) as Hi.
      specialize (IH deadline (<[i:=wk']> (wk0 :: ws)) t' E w').
      destruct (eventLoop fuel deadline _ t' E w'); auto.
      simpl in Hc. lia.
    + pose proof (inFlight_delete _ _ _ Hwk) as Hi.
      specialize (IH deadline (delete i (wk0 :: ws)) t' E w').
      destruct (eventLoop fuel deadline _ t' E w'); auto.
      simpl (option_list _) in Hc. rewrite inFlight_nil in Hc. lia.
Qed.

Lemma spawn_counts n : forall deadline E w,
  exists ws w', spawn n deadline E w = Returned ws w' /\
                (sent w' = sent w + inFlight ws)%nat /\ (length ws <= n)%nat.
Proof.
  induction n as [|n IH]; intros deadline E w; simpl.
  - unfold ret. do 2 eexists. split; [reflexivity|]. rewrite inFlight_nil. simpl. lia.
  - unfold bind at 1. destruct (advance_counts deadline E w) as (wk & w' & -> & Hs & _).
    unfold bind at 1. destruct (IH deadline E w') as (ws & w'' & -> & Hs' & Hl).
    unfold ret. do 2 eexists. split; [reflexivity|].
    rewrite inFlight_app, length_app. split; [lia|]. destruct wk; simpl; lia.
Qed.

Lemma workers_counts fuel n deadline t E w :
  match workers fuel n deadline t E w with
  | Returned t' w' => (counted t' + sent w = counted t + sent w')%nat
  | _ => True
  end.
Proof.
  unfold workers, bind. destruct (spawn_counts n deadline E w) as (ws & w' & -> & Hs & _).
  pose proof (eventLoop_counts fuel deadline ws t E w') as H.
  destruct (eventLoop fuel deadline ws t E w'); auto. lia.
Qed.

Lemma stressPhases_counts fuel phases : forall testDuration t E w,
  match stressPhases fuel phases testDuration t E w with
  | Returned t' w' => (counted t' + sent w = counted t + sent w')%nat
  | _ => True
  end.
Proof.
  induction phases as [|phase phases IH]; intros testDuration t E w; simpl.
  - unfold ret. lia.
  - unfold bind at 1. unfold dateNow at 1. unfold bind at 1.
    match goal with |- context [workers ?f ?n ?d ?t ?E ?w] =>
      pose proof (workers_counts f n d t E w) as Hw;
      destruct (workers f n d t E w) as [t1 w1| |] end; auto.
    specialize (IH testDuration t1 E w1).
    destruct (stressPhases fuel phases testDuration t1 E w1); auto.
    simpl in Hw. lia.
Qed.

End Counting.

(** X11. Every request a profile issues is counted exactly once: when a
    profile returns, [totalRequests] is the number of requests issued
    during the run. No sample is lost or counted twice, whatever order
    the workers of the load and stress tests are resumed in. *)
Theorem every_request_counted p fuel url duration E w :
  match run p fuel url duration E w with
  | Returned r w' => (totalRequests r + sent w)%nat = sent w'
  | Thrown _ => False
  | Starved _ => True
  end.
Proof.
  pose proof (run_spec p fuel url duration E w) as Hspec.
  destruct p; simpl in *.
  - unfold runResponseTimeTest, bind, dateNow in *.
    match goal with |- context [responseTimeLoop ?f ?e ?t ?rc ?E ?w] =>
      pose proof (responseTimeLoop_counts f e t rc E w) as H;
      destruct (responseTimeLoop f e t rc E w) end; auto.
  - unfold runLoadTest, bind, dateNow in *.
    match goal with |- context [workers ?f ?n ?d ?t ?E ?w] =>
      pose proof (workers_counts f n d t E w) as H;
      destruct (workers f n d t E w) end; auto.
  - unfold runStressTest, bind, dateNow in *.
    match goal with |- context [stressPhases ?f ?n ?d ?t ?E ?w] =>
      pose proof (stressPhases_counts f n d t E w) as H;
      destruct (stressPhases f n d t E w) end; auto.
  - unfold runReliabilityTest, bind, dateNow in *.
    match goal with |- context [reliabilityLoop ?f ?e ?t ?E ?w] =>
      pose proof (reliabilityLoop_counts f e t E w) as H;
      destruct (reliabilityLoop f e t E w) end; auto.
Qed.

(** *** The floor and the ceiling of the latency probe *)

(** X12. Given fuel for 101 iterations the latency probe always returns,
    whatever the clock and the target do, and it has issued at least 5
    and at most 101 requests. *)
Theorem latency_probe_floor_and_ceiling fuel url duration E w :
  (101 <= fuel)%nat ->
  exists r w',
    run ResponseTime fuel url duration E w = Returned r w' /\
    (5 <= totalRequests r <= 101)%nat.
Proof.
  intros Hfuel.
  destruct (latency_probe_returns fuel url duration E w Hfuel) as (r & Hr).
  pose proof (latency_probe_bounds fuel url duration E w r Hr) as Hb.
  destruct (run ResponseTime fuel url duration E w) as [r' w'| |]; try discriminate.
  injection Hr as ->. eauto.
Qed.

Lemma latency_probe_floor_and_ceiling_witness :
  (101 <= 101)%nat /\
  exists r w',
    run ResponseTime 101 "u" 1 refusing (boot noStorage) = Returned r w' /\
    (5 <= totalRequests r <= 101)%nat.
Proof.
  assert (101 <= 101)%nat as H by lia.
  split; [exact H|].
  apply (latency_probe_floor_and_ceiling 101 "u" 1 refusing (boot noStorage) H).
Defined.

(** *** A campaign whose deadline has passed when it starts *)

Section Expired.

Variable E : Env.
Hypothesis clock_monotone : monotone E.

Lemma probeOnce_reads t rc w :
  exists t' w', probeOnce t rc E w = Returned (t', S rc) w' /\
                counted t' = S (counted t) /\ (reads w <= reads w')%nat.
Proof.
  unfold probeOnce, tryCatch, bind, dateNow, fetch. simpl.
  destruct (net E (sent w)) as [ok st|]; simpl; do 2 eexists;
    (split; [reflexivity|]); split; auto using counted_tally, counted_miss; simpl; lia.
Qed.

Lemma responseTimeLoop_expired fuel : forall endTime t rc w,
  (forall k, (reads w <= k)%nat -> endTime <= clock E k) ->
  (rc <= 5)%nat -> (6 <= fuel + rc)%nat ->
  exists t' w',
    responseTimeLoop fuel endTime t rc E w = Returned t' w' /\
    (counted t' + rc = counted t + 5)%nat.
Proof.
  induction fuel as [|fuel IH]; intros endTime t rc w Hpast Hrc Hfuel; [lia|].
  simpl. unfold bind at 1. unfold dateNow at 1.
  assert ((clock E (reads w) <? endTime) = false) as ->
    by (apply Z.ltb_ge, Hpast; lia).
  cbn [orb]. unfold minimumRequests.
  destruct (rc <? 5)%nat eqn:Hlt.
  - apply Nat.ltb_lt in Hlt. unfold bind at 1.
    destruct (probeOnce_reads t rc (withReads (S (reads w)) w)) as (t' & w' & -> & Hc & Hr).
    cbn [fst snd]. simpl in Hr.
    assert ((100 <? S rc)%nat = false) as -> by (apply Nat.ltb_ge; lia).
    destruct (IH endTime t' (S rc) w') as (t'' & w'' & -> & Hc'); try lia.
    + intros k Hk. apply Hpast. lia.
    + do 2 eexists. split; [reflexivity|]. lia.
  - apply Nat.ltb_ge in Hlt. unfold ret. do 2 eexists. split; [reflexivity|]. lia.
Qed.

Lemma Qltb_past now deadline : (deadline <= inject_Z now)%Q -> Qltb (inject_Z now) deadline = false.
Proof. intros H. unfold Qltb. now apply Qgtb_false. Qed.

Lemma advance_expired deadline w :
  (forall k, (reads w <= k)%nat -> (deadline <= inject_Z (clock E k))%Q) ->
  advance deadline E w = Returned None (withReads (S (reads w)) w).
Proof.
  intros Hpast. unfold advance, bind, dateNow.
  rewrite Qltb_past by (apply Hpast; lia). reflexivity.
Qed.

Lemma spawn_expired n : forall deadline w,
  (forall k, (reads w <= k)%nat -> (deadline <= inject_Z (clock E k))%Q) ->
  exists w', spawn n deadline E w = Returned [] w' /\
             sent w' = sent w /\ (reads w <= reads w')%nat.
Proof.
  induction n as [|n IH]; intros deadline w Hpast; simpl.
  - unfold ret. eexists. split; [reflexivity|]. split; [reflexivity | lia].
  - unfold bind at 1. rewrite advance_expired by exact Hpast.
    unfold bind at 1.
    destruct (IH deadline (withReads (S (reads w)) w)) as (w' & -> & Hs & Hr).
    + intros k Hk. apply Hpast. simpl in Hk. lia.
    + unfold ret. eexists. split; [reflexivity|]. simpl in *. split; [exact Hs | lia].
Qed.

Lemma workers_expired fuel n deadline t w :
  (forall k, (reads w <= k)%nat -> (deadline <= inject_Z (clock E k))%Q) ->
  exists w', workers fuel n deadline t E w = Returned t w' /\
             sent w' = sent w /\ (reads w <= reads w')%nat.
Proof.
  intros Hpast. unfold workers, bind.
  destruct (spawn_expired n deadline w Hpast) as (w' & -> & Hs & Hr).
  destruct fuel; simpl; unfold ret; eauto.
Qed.

Lemma stressPhases_expired fuel phases : forall testDuration t w,
  testDuration <= 0 ->
  exists w', stressPhases fuel phases testDuration t E w = Returned t w' /\
             sent w' = sent w.
Proof.
  induction phases as [|phase phases IH]; intros testDuration t w Hd; simpl.
  - unfold ret. eauto.
  - unfold bind at 1. unfold dateNow at 1. unfold bind at 1.
    match goal with |- context [workers ?f ?n ?d ?t E ?w1] =>
      destruct (workers_expired f n d t w1) as (w' & -> & Hs & Hr) end.
    + intros k Hk. simpl in Hk.
      assert (inject_Z testDuration / 3 <= 0)%Q as Hneg.
      { apply Qle_shift_div_r; [reflexivity|]. rewrite Qmult_0_l.
        change 0%Q with (inject_Z 0). now rewrite <- Zle_Qle. }
      assert (inject_Z (clock E (reads w)) <= inject_Z (clock E k))%Q
        by (rewrite <- Zle_Qle; apply clock_monotone; lia).
      lra.
    + destruct (IH testDuration t w' Hd) as (w'' & -> & Hs'). eexists.
      split; [reflexivity|]. simpl in Hs. congruence.
Qed.

End Expired.

(** X13. With a clock that never goes back, a campaign of duration 0 or
    less returns at once: the latency probe issues exactly its minimum of
    5 requests, the load, stress and reliability tests issue none and
    return the all-zero result. *)
Theorem expired_campaign p fuel url duration E w :
  monotone E -> duration <= 0 -> (6 <= fuel)%nat ->
  exists r w',
    run p fuel url duration E w = Returned r w' /\
    match p with
    | ResponseTime => totalRequests r = 5%nat /\ sent w' = (sent w + 5)%nat
    | _ => r = mkResult 0 0 0 0 0 0 /\ sent w' = sent w
    end.
Proof.
  intros Hmono Hd Hfuel.
  assert (forall k, (S (reads w) <= k)%nat ->
                    clock E (reads w) + duration * 1000 <= clock E k) as Hpast.
  { intros k Hk. pose proof (Hmono (reads w) k ltac:(lia)). lia. }
  destruct p; simpl.
  - unfold runResponseTimeTest, bind at 1, dateNow at 1.
    destruct (responseTimeLoop_expired E fuel (clock E (reads w) + duration * 1000)
                emptyTally 0 (withReads (S (reads w)) w))
      as (t' & w' & Hloop & Hc); try lia; [exact Hpast|].
    pose proof (responseTimeLoop_counts fuel (clock E (reads w) + duration * 1000)
                  emptyTally 0 E (withReads (S (reads w)) w)) as Hsent.
    unfold bind. rewrite Hloop in *. unfold ret. do 2 eexists. split; [reflexivity|].
    unfold counted in *. simpl in *. lia.
  - unfold runLoadTest, bind at 1, dateNow at 1. unfold bind.
    destruct (workers_expired E fuel concurrentRequests
                (inject_Z (clock E (reads w) + duration * 1000)) emptyTally
                (withReads (S (reads w)) w)) as (w' & -> & Hs & _).
    + intros k Hk. rewrite <- Zle_Qle. apply Hpast. exact Hk.
    + unfold ret. do 2 eexists. split; [reflexivity|]. split; [reflexivity | exact Hs].
  - unfold runStressTest, bind at 1, dateNow at 1. unfold bind.
    destruct (stressPhases_expired E Hmono fuel [0; 1; 2]%nat (duration * 1000) emptyTally
                (withReads (S (reads w)) w)) as (w' & -> & Hs); [lia|].
    unfold ret. do 2 eexists. split; [reflexivity|]. split; [reflexivity | exact Hs].
  - unfold runReliabilityTest, bind at 1, dateNow at 1. unfold bind.
    destruct fuel as [|fuel]; [lia|]. cbn [reliabilityLoop].
    unfold bind at 1, dateNow at 1. cbn [reads withReads].
    assert ((clock E (S (reads w)) <? clock E (reads w) + duration * 1000) = false) as ->
      by (apply Z.ltb_ge, Hpast; lia).
    unfold ret. do 2 eexists. split; [reflexivity|]. split; reflexivity.
Qed.

Lemma expired_campaign_witness :
  monotone steady /\ 0 <= 0 /\ (6 <= 6)%nat /\
  exists r w',
    run ResponseTime 6 "u" 0 steady (boot noStorage) = Returned r w' /\
    totalRequests r = 5%nat /\ sent w' = (sent (boot noStorage) + 5)%nat.
Proof.
  assert (monotone steady) as Hm.
  { intros i j Hij. unfold steady, clock, steadyClock.
    destruct i as [|i], j as [|j]; try lia;
      repeat match goal with |- context [(?a =? ?b)%nat] => destruct (Nat.eqb_spec a b) end;
      try pose proof (Nat.div_mod_eq i 3); try pose proof (Nat.div_mod_eq j 3);
      try pose proof (Nat.mod_upper_bound i 3 ltac:(lia));
      try pose proof (Nat.mod_upper_bound j 3 ltac:(lia));
      lia. }
  assert (0 <= 0) as Hd by lia. assert (6 <= 6)%nat as Hf by lia.
  split; [exact Hm|]. split; [exact Hd|]. split; [exact Hf|].
  apply (expired_campaign ResponseTime 6 "u" 0 steady (boot noStorage) Hm Hd Hf).
Defined.

Import ReliabilityService.

(** *** One schedule per application *)

Section Schedule.

Lemma checkReliability_keeps_timers a u E w :
  let w' := worldOf (checkReliability a u E w) in
  monitoringIntervals w' = monitoringIntervals w /\ timers w' = timers w /\
  nextTimer w' = nextTimer w.
Proof.
  unfold checkReliability, performUptimeCheck, tryCatch, bind, dateNow, fetch, await,
    console_error, ret, throw, storage.createReliabilityMetrics,
    storage.createPerformanceMetrics, statement. simpl.
  destruct (net E (sent w)); simpl;
    repeat (match goal with |- context [fault E ?k] => destruct (fault E k) end; simpl);
    repeat split.
Qed.

Lemma stopMonitoring_world a E w :
  stopMonitoring a E w =
  Returned tt
    (match monitoringIntervals w !! a with
     | Some h => withTimers (delete a (monitoringIntervals w)) (delete h (timers w))
                   (nextTimer w) w
     | None => w
     end).
Proof.
  unfold stopMonitoring. destruct (monitoringIntervals w !! a); reflexivity.
Qed.

Lemma stopMonitoring_tidy a E w :
  tidy w ->
  let w' := worldOf (stopMonitoring a E w) in
  tidy w' /\ monitoringIntervals w' !! a = None /\
  (forall h u, timers w' !! h <> Some (a, u)) /\
  nextTimer w' = nextTimer w /\
  (forall h a' u, a' <> a -> timers w' !! h = Some (a', u) <-> timers w !! h = Some (a', u)).
Proof.
  intros (Ht & Hm & Hn). rewrite stopMonitoring_world. cbn [worldOf].
  destruct (monitoringIntervals w !! a) as [h0|] eqn:Ha.
  - unfold tidy. cbn [monitoringIntervals timers nextTimer withTimers].
    assert (forall h a' u, timers w !! h = Some (a', u) -> h = h0 -> a' = a) as Hsame.
    { intros h a' u H ->. destruct (Hm a h0 Ha) as (u0 & Hu). congruence. }
    split_and!.
    + intros h a' u H. apply lookup_delete_Some in H as [Hne H].
      rewrite lookup_delete_ne; [exact (Ht _ _ _ H)|].
      intros ->. apply Ht in H. congruence.
    + intros a' h H. apply lookup_delete_Some in H as [Hne H].
      destruct (Hm a' h H) as (u & Hu). exists u.
      rewrite lookup_delete_ne; [exact Hu|]. intros ->. apply Hne. symmetry.
      eapply Hsame; eauto.
    + intros h Hh. rewrite lookup_delete_None. right. now apply Hn.
    + apply lookup_delete_eq.
    + intros h u H. apply lookup_delete_Some in H as [Hne H]. apply Ht in H. congruence.
    + reflexivity.
    + intros h a' u Hne. split.
      * intros H. now apply lookup_delete_Some in H as [_ H].
      * intros H. apply lookup_delete_Some. split; [|exact H].
        intros ->. apply Hne. eapply Hsame; eauto.
  - split_and!; auto.
    + unfold tidy. auto.
    + intros h u H. apply Ht in H. congruence.
Qed.

Lemma startMonitoring_tick a u E w :
  let w1 := worldOf (stopMonitoring a E w) in
  startMonitoring a u E w =
  checkReliability a u E
    (withTimers (<[a := nextTimer w1]> (monitoringIntervals w1))
       (<[nextTimer w1 := (a, u)]> (timers w1)) (S (nextTimer w1)) w1).
Proof.
  unfold startMonitoring, bind. rewrite stopMonitoring_world. reflexivity.
Qed.

Lemma startMonitoring_world a u E w :
  let w1 := worldOf (stopMonitoring a E w) in
  let w' := worldOf (startMonitoring a u E w) in
  monitoringIntervals w' = <[a := nextTimer w1]> (monitoringIntervals w1) /\
  timers w' = <[nextTimer w1 := (a, u)]> (timers w1) /\
  nextTimer w' = S (nextTimer w1).
Proof.
  intros w1 w'. subst w'. rewrite startMonitoring_tick. fold w1.
  apply checkReliability_keeps_timers.
Qed.

End Schedule.

(** X14. The monitor keeps at most one schedule per application. From a
    state in which the map of the service and the armed timers agree
    (the initial state is one), [startMonitoring] leaves them agreeing,
    with exactly one armed timer for the application, carrying the new
    URL, and leaves the timers of other applications alone, whether or
    not the first check throws. *)
Theorem startMonitoring_one_schedule a u E w :
  tidy w ->
  let w' := worldOf (startMonitoring a u E w) in
  tidy w' /\
  monitoringIntervals w' !! a = Some (nextTimer w) /\
  (forall h u', timers w' !! h = Some (a, u') <-> h = nextTimer w /\ u' = u) /\
  (forall h a' u', a' <> a ->
     timers w' !! h = Some (a', u') <-> timers w !! h = Some (a', u')).
Proof.
  intros Htidy.
  destruct (stopMonitoring_tidy a E w Htidy) as ((Ht & Hm & Hn) & Hnone & Hno & Hnext & Hothers).
  destruct (startMonitoring_world a u E w) as (K1 & K2 & K3).
  cbv zeta in *. set (w1 := worldOf (stopMonitoring a E w)) in *.
  unfold tidy. rewrite K1, K2, K3, Hnext.
  assert (timers w1 !! nextTimer w = None) as Hfresh by (apply Hn; lia).
  split_and!.
  - intros h a' u' H. apply lookup_insert_Some in H as [[<- [= <- <-]]|[Hne H]].
    + apply lookup_insert_eq.
    + rewrite lookup_insert_ne; [exact (Ht _ _ _ H)|]. intros <-. apply Ht in H. congruence.
  - intros a' h H. apply lookup_insert_Some in H as [[<- <-]|[Hne H]].
    + exists u. apply lookup_insert_eq.
    + destruct (Hm a' h H) as (u' & Hu). exists u'.
      rewrite lookup_insert_ne; [exact Hu|]. intros <-. congruence.
  - intros h Hh. rewrite lookup_insert_ne by lia. apply Hn. lia.
  - apply lookup_insert_eq.
  - intros h u'. split.
    + intros H. apply lookup_insert_Some in H as [[<- [= <-]]|[Hne H]]; [auto|].
      exfalso. eapply Hno; eauto.
    + intros [-> ->]. apply lookup_insert_eq.
  - intros h a' u' Hne. split.
    + intros H. apply lookup_insert_Some in H as [[<- [= <- <-]]|[Hne' H]]; [congruence|].
      now apply Hothers.
    + intros H. apply Hothers in H; [|assumption].
      rewrite lookup_insert_ne; [exact H|]. intros <-. congruence.
Qed.

Lemma startMonitoring_one_schedule_witness :
  tidy (boot noStorage) /\
  monitoringIntervals (worldOf (startMonitoring "app1" "u" steady (boot noStorage)))
    !! "app1"%string = Some 0%nat.
Proof.
  assert (tidy (boot noStorage)) as H.
  { unfold tidy. cbn. split_and!; intros; rewrite ?lookup_empty in *; try discriminate; auto. }
  split; [exact H|].
  exact (proj1 (proj2 (startMonitoring_one_schedule "app1" "u" steady (boot noStorage) H))).
Defined.

(** X15. [stopMonitoring] cancels the schedule of its application and
    nothing else: from an agreeing state it leaves an agreeing state with
    no entry and no armed timer for the application, the timers of other
    applications as they were, and the cancelled timer, should it fire,
    makes no call. It makes no storage call itself. *)
Theorem stopMonitoring_cancels a E w :
  tidy w ->
  let w' := worldOf (stopMonitoring a E w) in
  tidy w' /\
  monitoringIntervals w' !! a = None /\
  (forall h u, timers w' !! h <> Some (a, u)) /\
  (forall h a' u, a' <> a ->
     timers w' !! h = Some (a', u) <-> timers w !! h = Some (a', u)) /\
  journal w' = journal w /\
  (forall h, monitoringIntervals w !! a = Some h -> fire h E w' = Returned tt w').
Proof.
  intros Htidy. destruct (stopMonitoring_tidy a E w Htidy) as (H1 & H2 & H3 & _ & H5).
  cbv zeta in *. split_and!; auto.
  - destruct (stopMonitoring_returns a E w) as (w' & -> & Hj). exact Hj.
  - intros h Hh. unfold fire.
    destruct (timers (worldOf (stopMonitoring a E w)) !! h) as [[a' u']|] eqn:Ht; [|reflexivity].
    exfalso. rewrite stopMonitoring_world in Ht. rewrite Hh in Ht. cbn in Ht.
    now rewrite lookup_delete_eq in Ht.
Qed.

Lemma stopMonitoring_cancels_witness :
  let w := worldOf (startMonitoring "app1" "u" steady (boot noStorage)) in
  tidy w /\ monitoringIntervals (worldOf (stopMonitoring "app1" steady w)) !! "app1"%string = None.
Proof.
  intros w.
  assert (tidy w) as H.
  { assert (tidy (boot noStorage)) as H0.
    { unfold tidy. cbn. split_and!; intros; rewrite ?lookup_empty in *; try discriminate; auto. }
    exact (proj1 (startMonitoring_one_schedule "app1" "u" steady (boot noStorage) H0)). }
  split; [exact H|].
  exact (proj1 (proj2 (stopMonitoring_cancels "app1" steady w H))).
Defined.

Import BenchmarkService.

(** *** The profiles return when the clock goes on *)

Section Termination.

Variable E : Env.

(** More fuel does not change what a loop returned. *)
Lemma responseTimeLoop_fuel fuel : forall endTime t rc w t' w',
  responseTimeLoop fuel endTime t rc E w = Returned t' w' ->
  responseTimeLoop (S fuel) endTime t rc E w = Returned t' w'.
Proof.
  induction fuel as [|fuel IH]; intros endTime t rc w t' w' H; [discriminate|].
  cbn [responseTimeLoop] in H |- *. unfold bind at 1 in H. unfold bind at 1.
  unfold dateNow at 1 in H. unfold dateNow at 1.
  destruct (_ || _); [|exact H].
  unfold bind at 1 in H. unfold bind at 1.
  destruct (probeOnce t rc E (withReads (S (reads w)) w)) as [[t1 rc1] w1| |];
    try discriminate.
  cbn [fst snd] in H |- *. destruct (100 <? rc1)%nat; [exact H|].
  apply IH in H. exact H.
Qed.

Lemma reliabilityLoop_fuel fuel : forall endTime t w t' w',
  reliabilityLoop fuel endTime t E w = Returned t' w' ->
  reliabilityLoop (S fuel) endTime t E w = Returned t' w'.
Proof.
  induction fuel as [|fuel IH]; intros endTime t w t' w' H; [discriminate|].
  cbn [reliabilityLoop] in H |- *. unfold bind at 1 in H. unfold bind at 1.
  unfold dateNow at 1 in H. unfold dateNow at 1.
  destruct (_ <? _); [|exact H].
  unfold bind at 1 in H. unfold bind at 1.
  destruct (sampleOnce t E (withReads (S (reads w)) w)) as [t1 w1| |]; try discriminate.
  unfold bind at 1 in H. unfold bind at 1. unfold sleep at 1, ret at 1 in H.
  unfold sleep at 1, ret at 1. apply IH in H. exact H.
Qed.

Lemma eventLoop_step fuel deadline wk0 ws t :
  eventLoop (S fuel) deadline (wk0 :: ws) t =
  (k <- pick ;;
   let i := (k mod length (wk0 :: ws))%nat in
   match (wk0 :: ws) !! i with
   | None => ret t
   | Some wk =>
       st <- resume deadline wk t ;;
       match st.1 with
       | Some wk => eventLoop fuel deadline (<[i := wk]> (wk0 :: ws)) st.2
       | None => eventLoop fuel deadline (delete i (wk0 :: ws)) st.2
       end
   end)%engine.
Proof. reflexivity. Qed.

Lemma eventLoop_fuel fuel : forall deadline ws t w t' w',
  eventLoop fuel deadline ws t E w = Returned t' w' ->
  eventLoop (S fuel) deadline ws t E w = Returned t' w'.
Proof.
  induction fuel as [|fuel IH]; intros deadline ws t w t' w' H.
  - destruct ws; [exact H | discriminate].
  - destruct ws as [|wk0 ws]; [exact H|].
    rewrite eventLoop_step in H |- *.
    unfold bind at 1 in H. unfold bind at 1. unfold pick at 1 in H. unfold pick at 1.
    cbv zeta in H |- *.
    destruct (_ !! _) as [wk|]; [|exact H].
    unfold bind at 1 in H. unfold bind at 1.
    destruct (resume deadline wk t E (withTurns (S (turns w)) w)) as [[[wk'|] t1] w1| |];
      try discriminate; cbn [fst snd] in H |- *; apply IH in H; exact H.
Qed.

Lemma responseTimeLoop_fuel_le fuel fuel' endTime t rc w t' w' :
  (fuel <= fuel')%nat ->
  responseTimeLoop fuel endTime t rc E w = Returned t' w' ->
  responseTimeLoop fuel' endTime t rc E w = Returned t' w'.
Proof. intros Hle H. induction Hle; [exact H|]. now apply responseTimeLoop_fuel. Qed.

Lemma reliabilityLoop_fuel_le fuel fuel' endTime t w t' w' :
  (fuel <= fuel')%nat ->
  reliabilityLoop fuel endTime t E w = Returned t' w' ->
  reliabilityLoop fuel' endTime t E w = Returned t' w'.
Proof. intros Hle H. induction Hle; [exact H|]. now apply reliabilityLoop_fuel. Qed.

Lemma eventLoop_fuel_le fuel fuel' deadline ws t w t' w' :
  (fuel <= fuel')%nat ->
  eventLoop fuel deadline ws t E w = Returned t' w' ->
  eventLoop fuel' deadline ws t E w = Returned t' w'.
Proof. intros Hle H. induction Hle; [exact H|]. now apply eventLoop_fuel. Qed.

(** The reliability test leaves its loop once the readings have passed
    the deadline. *)
Lemma sampleOnce_reads t w :
  exists t' w', sampleOnce t E w = Returned t' w' /\ (S (reads w) <= reads w')%nat.
Proof.
  unfold sampleOnce, tryCatch, bind, dateNow, fetch. simpl.
  destruct (net E (sent w)) as [ok st|]; simpl; do 2 eexists;
    (split; [reflexivity|]); simpl; lia.
Qed.

Lemma reliabilityLoop_returns K endTime :
  (forall k, (K <= k)%nat -> endTime <= clock E k) ->
  forall fuel t w, (K - reads w < fuel)%nat ->
  exists t' w', reliabilityLoop fuel endTime t E w = Returned t' w'.
Proof.
  intros Hpast. induction fuel as [|fuel IH]; intros t w Hfuel; [lia|].
  cbn [reliabilityLoop]. unfold bind at 1. unfold dateNow at 1.
  destruct (clock E (reads w) <? endTime) eqn:Hc; [|unfold ret; eauto].
  apply Z.ltb_lt in Hc.
  assert (reads w < K)%nat as Hlt.
  { destruct (Nat.lt_ge_cases (reads w) K) as [|Hge]; [assumption|].
    specialize (Hpast _ Hge). lia. }
  unfold bind at 1.
  destruct (sampleOnce_reads t (withReads (S (reads w)) w)) as (t' & w' & -> & Hr).
  simpl in Hr. unfold bind at 1, sleep at 1, ret at 1.
  apply IH. lia.
Qed.

(** The potential of a pool: twice the readings left before the deadline
    has passed, plus the requests in flight, plus the workers. Every turn
    of the event loop lowers it. *)
Lemma resume_progress K deadline wk t w :
  (forall k, (K <= k)%nat -> (deadline <= inject_Z (clock E k))%Q) ->
  exists wk' t' w',
    resume deadline wk t E w = Returned (wk', t') w' /\
    (2 * (K - reads w') + inFlight (option_list wk') + length (option_list wk') + 1
     <= 2 * (K - reads w) + inFlight [wk] + 1)%nat.
Proof.
  intros Hpast. destruct wk as [startTime [ok st|]|]; simpl.
  - unfold tryCatch, bind, await, ret, dateNow. simpl.
    do 3 eexists. split; [reflexivity|].
    simpl (option_list _). cbn [reads withReads withSent length].
    rewrite ?inFlight_cons, ?inFlight_nil. lia.
  - unfold tryCatch, bind, await, throw, ret. simpl.
    do 3 eexists. split; [reflexivity|].
    simpl (option_list _). cbn [reads withReads withSent length].
    rewrite ?inFlight_cons, ?inFlight_nil. lia.
  - unfold bind at 1, advance, bind at 1, dateNow at 1.
    destruct (Qltb (inject_Z (clock E (reads w))) deadline) eqn:Hc.
    + assert (reads w < K)%nat as Hlt.
      { destruct (Nat.lt_ge_cases (reads w) K) as [|Hge]; [assumption|].
        specialize (Hpast _ Hge). unfold Qltb in Hc. apply Qgtb_true in Hc. lra. }
      unfold bind, dateNow, fetch, ret. simpl.
      do 3 eexists. split; [reflexivity|].
      simpl (option_list _). cbn [reads withReads withSent length].
      rewrite ?inFlight_cons, ?inFlight_nil. lia.
    + unfold ret. simpl. do 3 eexists. split; [reflexivity|].
      simpl (option_list _). cbn [reads withReads withSent length].
      rewrite ?inFlight_cons, ?inFlight_nil. lia.
Qed.

Lemma eventLoop_returns K deadline :
  (forall k, (K <= k)%nat -> (deadline <= inject_Z (clock E k))%Q) ->
  forall fuel ws t w,
    (2 * (K - reads w) + inFlight ws + length ws <= fuel)%nat ->
    exists t' w', eventLoop fuel deadline ws t E w = Returned t' w'.
Proof.
  intros Hpast. induction fuel as [|fuel IH]; intros ws t w Hfuel.
  - destruct ws; [simpl; unfold ret; eauto | simpl in Hfuel; lia].
  - destruct ws as [|wk0 ws]; [simpl; unfold ret; eauto|].
    rewrite eventLoop_step. unfold bind at 1. unfold pick at 1. cbv zeta.
    set (i := (sched E (turns w) mod length (wk0 :: ws))%nat).
    destruct ((wk0 :: ws) !! i) as [wk|] eqn:Hwk; [|unfold ret; eauto].
    unfold bind at 1.
    destruct (resume_progress K deadline wk t (withTurns (S (turns w)) w) Hpast)
      as (wk' & t' & w' & -> & Hp).
    cbn [reads withTurns] in Hp. cbn [fst snd]. destruct wk' as [wk'|].
    + apply IH. pose proof (inFlight_insert _ _ _ wk' Hwk) as Hi.
      rewrite length_insert. simpl (option_list _) in Hp. simpl (length [_]) in Hp. lia.
    + apply IH. pose proof (inFlight_delete _ _ _ Hwk) as Hi.
      pose proof (length_delete _ _ (mk_is_Some _ _ Hwk)) as Hl.
      simpl (option_list _) in Hp. rewrite inFlight_nil in Hp. simpl (length []) in Hp.
      assert (0 < length (wk0 :: ws))%nat by (simpl; lia). lia.
Qed.

Hypothesis clock_unbounded : unbounded E.

Lemma deadline_passes (deadline : Q) :
  exists K, forall k, (K <= k)%nat -> (deadline <= inject_Z (clock E k))%Q.
Proof.
  destruct (clock_unbounded (Qceiling deadline)) as (K & HK). exists K. intros k Hk.
  apply Qle_trans with (inject_Z (Qceiling deadline)); [apply Qle_ceiling|].
  rewrite <- Zle_Qle. now apply HK.
Qed.

Lemma workers_returns n deadline t w :
  exists fuel0 t' w',
    forall fuel, (fuel0 <= fuel)%nat -> workers fuel n deadline t E w = Returned t' w'.
Proof.
  destruct (deadline_passes deadline) as (K & HK).
  destruct (spawn_counts n deadline E w) as (ws & w1 & Hspawn & _ & _).
  destruct (eventLoop_returns K deadline HK _ ws t w1 (Nat.le_refl _)) as (t' & w' & Hloop).
  eexists _, t', w'. intros fuel Hfuel. unfold workers, bind. rewrite Hspawn.
  eapply eventLoop_fuel_le; eassumption.
Qed.

Lemma stressPhases_returns phases : forall testDuration t w,
  exists fuel0 t' w',
    forall fuel, (fuel0 <= fuel)%nat ->
                 stressPhases fuel phases testDuration t E w = Returned t' w'.
Proof.
  induction phases as [|phase phases IH]; intros testDuration t w.
  - exists 0%nat, t, w. reflexivity.
  - destruct (workers_returns (Nat.min (5 * (phase + 1)) maxConcurrency)
                (inject_Z (clock E (reads w)) + inject_Z testDuration / 3)%Q t
                (withReads (S (reads w)) w)) as (f1 & t1 & w1 & H1).
    destruct (IH testDuration t1 w1) as (f2 & t2 & w2 & H2).
    exists (Nat.max f1 f2), t2, w2. intros fuel Hfuel.
    cbn [stressPhases]. cbv zeta.
    unfold bind at 1, dateNow at 1. unfold bind at 1.
    rewrite H1 by lia. apply H2. lia.
Qed.

End Termination.

(** X16. When the clock passes every instant sooner or later, every
    profile returns: there is an amount of fuel from which on the run
    returns, always with the same result. *)
Theorem profiles_terminate p url duration E w :
  unbounded E ->
  exists fuel0 r w',
    forall fuel, (fuel0 <= fuel)%nat -> run p fuel url duration E w = Returned r w'.
Proof.
  intros Hclock. destruct p; simpl.
  - pose proof (responseTimeLoop_spec 101 (clock E (reads w) + duration * 1000)
                  emptyTally 0 E (withReads (S (reads w)) w) ltac:(lia)) as H.
    destruct (responseTimeLoop 101 _ emptyTally 0 E _) as [t' w'| |] eqn:Hloop;
      [|contradiction|lia].
    exists 101%nat, (aggregateRounded t'), w'. intros fuel Hfuel.
    unfold runResponseTimeTest, bind at 1, dateNow at 1. unfold bind.
    now rewrite (responseTimeLoop_fuel_le E _ _ _ _ _ _ _ _ Hfuel Hloop).
  - destruct (workers_returns E Hclock concurrentRequests
                (inject_Z (clock E (reads w) + duration * 1000)) emptyTally
                (withReads (S (reads w)) w)) as (fuel0 & t' & w' & H).
    exists fuel0, (aggregateExact t'), w'. intros fuel Hfuel.
    unfold runLoadTest, bind at 1, dateNow at 1. unfold bind. now rewrite H.
  - destruct (stressPhases_returns E Hclock [0; 1; 2]%nat (duration * 1000) emptyTally
                (withReads (S (reads w)) w)) as (fuel0 & t' & w' & H).
    exists fuel0, (aggregateExact t'), w'. intros fuel Hfuel.
    unfold runStressTest, bind at 1, dateNow at 1. unfold bind. now rewrite H.
  - destruct (Hclock (clock E (reads w) + duration * 1000)) as (K & HK).
    destruct (reliabilityLoop_returns E K _ HK (S K) emptyTally (withReads (S (reads w)) w))
      as (t' & w' & Hloop); [lia|].
    exists (S K), (aggregateExact t'), w'. intros fuel Hfuel.
    unfold runReliabilityTest, bind at 1, dateNow at 1. unfold bind.
    now rewrite (reliabilityLoop_fuel_le E _ _ _ _ _ _ _ Hfuel Hloop).
Qed.

Lemma profiles_terminate_witness :
  unbounded refusing /\
  exists fuel0 r w',
    forall fuel, (fuel0 <= fuel)%nat ->
                 run StressTest fuel "u" 3 refusing (boot noStorage) = Returned r w'.
Proof.
  assert (unbounded refusing) as H.
  { intros T. exists (Z.to_nat T). intros k Hk. unfold refusing, clock. lia. }
  split; [exact H|].
  apply (profiles_terminate StressTest "u" 3 refusing (boot noStorage) H).
Defined.

(** *** A campaign without a failure *)

Lemma all_succeeded_failures samples :
  Forall (fun s => succeeded s = true) samples -> failures samples = [].
Proof.
  unfold failures. induction 1 as [|s samples Hs _ IH]; [reflexivity|].
  rewrite filter_cons. case_decide; [congruence | exact IH].
Qed.

Lemma all_succeeded_latencies samples :
  Forall (fun s => succeeded s = true) samples -> latencies samples = map elapsed samples.
Proof.
  unfold latencies. induction 1 as [|s samples Hs _ IH]; [reflexivity|].
  rewrite filter_cons. case_decide; [|congruence]. simpl. now rewrite IH.
Qed.

(** X17. When a campaign took samples and every one succeeded, its
    result has success rate 100 and error rate 0, counts every sample as
    successful, and its score is decided by the average latency alone:
    100 up to 200 ms, 90 up to 500 ms, 80 up to 1000 ms, 70 above. *)
Theorem all_succeeded_result p samples :
  samples <> [] ->
  Forall (fun s => succeeded s = true) samples ->
  let r := aggregate p (accumulate samples) in
  (successRate r == 100)%Q /\ (errorRate r == 0)%Q /\
  successfulRequests r = length samples /\ failedRequests r = 0%nat /\
  calculatePerformanceScore r =
    (if Qgtb (averageResponseTime r) 1000 then 70
     else if Qgtb (averageResponseTime r) 500 then 80
     else if Qgtb (averageResponseTime r) 200 then 90
     else 100).
Proof.
  intros Hne Hall r.
  assert (failCount (accumulate samples) = 0%nat) as Hf
    by (rewrite accumulate_failCount, all_succeeded_failures; auto).
  assert (successCount (accumulate samples) = length samples) as Hs
    by (rewrite accumulate_successCount, all_succeeded_latencies, length_map; auto).
  assert (0 < length samples)%nat as Hlen by (destruct samples; [congruence | simpl; lia]).
  assert ((0 <? length samples + 0)%nat = true) as Hb by (apply Nat.ltb_lt; lia).
  pose proof (ofNat_pos _ Hlen) as Hp.
  assert (successRate r == 100)%Q as Hsr.
  { subst r. destruct p;
      cbn [aggregate aggregateExact aggregateRounded successRate]; rewrite Hs, Hf, Hb.
    - rewrite (Math_round_proper _ (inject_Z 10000)).
      + rewrite Math_round_Z. reflexivity.
      + rewrite Nat.add_0_r. change (inject_Z 10000) with 10000%Q. field. lra.
    - rewrite Nat.add_0_r. field. lra.
    - rewrite Nat.add_0_r. field. lra.
    - rewrite Nat.add_0_r. field. lra. }
  assert (errorRate r == 0)%Q as Her.
  { subst r. destruct p;
      cbn [aggregate aggregateExact aggregateRounded errorRate]; rewrite Hs, Hf, Hb.
    - rewrite (Math_round_proper _ (inject_Z 0)).
      + rewrite Math_round_Z. reflexivity.
      + change (inject_Z 0) with 0%Q. change (ofNat 0) with 0%Q. field.
        rewrite Nat.add_0_r. lra.
    - change (ofNat 0) with 0%Q. field. rewrite Nat.add_0_r. lra.
    - change (ofNat 0) with 0%Q. field. rewrite Nat.add_0_r. lra.
    - change (ofNat 0) with 0%Q. field. rewrite Nat.add_0_r. lra. }
  split; [exact Hsr|]. split; [exact Her|].
  split; [subst r; destruct p; exact Hs|]. split; [subst r; destruct p; exact Hf|].
  destruct r as [avg sr er n m k]. cbn [averageResponseTime errorRate] in *.
  rewrite (score_proper avg avg er 0 sr sr n n m m k k); [|reflexivity|exact Her].
  unfold calculatePerformanceScore. cbn [averageResponseTime errorRate].
  destruct (Qgtb avg 1000); [reflexivity|].
  destruct (Qgtb avg 500); [reflexivity|].
  destruct (Qgtb avg 200); reflexivity.
Qed.

Lemma all_succeeded_result_witness :
  let samples := [mkSample 50 (Responded true 200); mkSample 50 (Responded true 200)] in
  samples <> [] /\ Forall (fun s => succeeded s = true) samples /\
  (successRate (aggregate LoadTest (accumulate samples)) == 100)%Q /\
  calculatePerformanceScore (aggregate LoadTest (accumulate samples)) = 100.
Proof.
  intros samples.
  assert (samples <> []) as Hne by discriminate.
  assert (Forall (fun s => succeeded s = true) samples) as Hall by (repeat constructor).
  split; [exact Hne|]. split; [exact Hall|].
  destruct (all_succeeded_result LoadTest samples Hne Hall) as (Hsr & _ & _ & _ & Hscore).
  split; [exact Hsr|]. rewrite Hscore. reflexivity.
Defined.

(** *** The footprint of a tick *)

Import ReliabilityService.

(** X18. Whatever happens, a tick issues exactly one request and makes
    two or three storage calls, all of them inserts of metrics records
    for its application; it leaves the campaigns and the schedules of the
    monitor as they were. *)
Theorem tick_footprint applicationId url E w :
  let r := checkReliability applicationId url E w in
  let w' := worldOf r in
  sent w' = S (sent w) /\
  (2 <= length (issued w r) <= 3)%nat /\
  Forall (fun e => match call e with
                   | CreateReliabilityMetrics m => rm_applicationId m = applicationId
                   | CreatePerformanceMetrics m => pm_applicationId m = applicationId
                   | _ => False
                   end) (issued w r) /\
  benchmarks (db w') = benchmarks (db w) /\
  monitoringIntervals w' = monitoringIntervals w /\ timers w' = timers w.
Proof.
  intros r w'.
  destruct (checkReliability_keeps_timers applicationId url E w) as (Hm & Ht & _).
  destruct (checkReliability_effect applicationId url E w) as (result & _ & H).
  fold r in H, Hm, Ht. cbv zeta in H, Hm, Ht. fold w' in Hm, Ht.
  assert (sent w' = S (sent w) /\ benchmarks (db w') = benchmarks (db w)) as [Hs Hb].
  { subst w' r.
    unfold checkReliability, performUptimeCheck, tryCatch, bind, dateNow, fetch, await,
      console_error, ret, throw, storage.createReliabilityMetrics,
      storage.createPerformanceMetrics, statement. simpl.
    destruct (net E (sent w)); simpl;
      repeat (match goal with |- context [fault E ?k] => destruct (fault E k) end; simpl);
      split; reflexivity. }
  split; [exact Hs|].
  assert (2 <= length (issued w r) <= 3 /\
          Forall (fun e => match call e with
                   | CreateReliabilityMetrics m => rm_applicationId m = applicationId
                   | CreatePerformanceMetrics m => pm_applicationId m = applicationId
                   | _ => False
                   end) (issued w r))%nat as [Hl Hf].
  { destruct (fault E (calls w)), (fault E (S (calls w)));
      try destruct (fault E (S (S (calls w))));
      injection H as Hi _ _; rewrite Hi; (split; [simpl; lia | repeat constructor]). }
  auto.
Qed.

Import BenchmarkService.

(** *** The status writes of a campaign, in every execution *)

Section StatusSequences.

(** The status writes of the [try] block, by the way it ends. *)
Lemma body_writes fuel id url type duration E w :
  let body :=
    (startedAt <- dateNow ;;
     storage.updateBenchmark id
       (mkPatch (Some "running"%string) (Some startedAt) None None) ;;;
     result <-
       (if String.eqb type "response_time" then runResponseTimeTest fuel url duration
        else if String.eqb type "load_test" then runLoadTest fuel url duration
        else if String.eqb type "stress_test" then runStressTest fuel url duration
        else if String.eqb type "reliability_test" then runReliabilityTest fuel url duration
        else throw) ;;
     completedAt <- dateNow ;;
     storage.updateBenchmark id
       (mkPatch (Some "completed"%string) None (Some completedAt) (Some result)) ;;;
     benchmark <- storage.getBenchmarkById id ;;
     match benchmark with
     | Some benchmark =>
         let performanceScore := calculatePerformanceScore result in
         storage.createPerformanceMetrics
           {| pm_applicationId := applicationId benchmark;
              pm_responseTime := averageResponseTime result;
              pm_uptime := successRate result;
              pm_errorRate := errorRate result;
              pm_performanceScore := performanceScore |}
     | None => ret tt
     end) in
  match body E w with
  | Returned _ w1 =>
      exists es, journal w1 = journal w ++ es /\
        statusWrites id es = ["running"; "completed"]%string
  | Thrown w1 =>
      exists es, journal w1 = journal w ++ es /\
        (statusWrites id es = [] \/ statusWrites id es = ["running"]%string \/
         statusWrites id es = ["running"; "completed"]%string)
  | Starved w1 =>
      exists es, journal w1 = journal w ++ es /\
        statusWrites id es = ["running"]%string
  end.
Proof.
  cbv zeta.
  erewrite bind_Returned by reflexivity.
  unfold storage.updateBenchmark at 1. cbn [storage.noKeys setStatus].
  destruct (fault E (calls w)) eqn:F0.
  { erewrite bind_Thrown by (apply statement_fails; exact F0).
    eexists. cbn [journal withStorage withReads]. split; [reflexivity|].
    left. reflexivity. }
  erewrite bind_Returned by (apply statement_ok; exact F0).
  match goal with |- context [bind ?prof _ E ?w2] =>
    destruct (quiet_profile fuel url type duration E w2) as (Hj & Hc & _);
    destruct (prof E w2) as [res w3|w3|w3] eqn:Hprof end;
    cbn [worldOf] in Hj, Hc; cbn [journal calls withStorage withReads] in Hj, Hc.
  2: { erewrite bind_Thrown by eassumption. eexists. rewrite Hj.
       split; [reflexivity|]. right. left. cbn. rewrite String.eqb_refl. reflexivity. }
  2: { erewrite bind_Starved by eassumption. eexists. rewrite Hj.
       split; [reflexivity|]. cbn. rewrite String.eqb_refl. reflexivity. }
  erewrite bind_Returned by eassumption.
  erewrite bind_Returned by reflexivity.
  unfold storage.updateBenchmark at 1. cbn [storage.noKeys setStatus].
  destruct (fault E (S (calls w))) eqn:F1.
  { erewrite bind_Thrown
      by (apply statement_fails; cbn [calls withReads]; rewrite Hc; exact F1).
    eexists. cbn [journal withStorage withReads]. rewrite Hj, <- !app_assoc.
    split; [reflexivity|]. right. left. cbn. rewrite String.eqb_refl. reflexivity. }
  erewrite bind_Returned
    by (apply statement_ok; cbn [calls withReads]; rewrite Hc; exact F1).
  unfold storage.getBenchmarkById.
  destruct (fault E (S (S (calls w)))) eqn:F2.
  { erewrite bind_Thrown
      by (apply statement_fails; cbn [calls withStorage withReads]; rewrite Hc; exact F2).
    eexists. cbn [journal withStorage withReads]. rewrite Hj, <- !app_assoc.
    split; [reflexivity|]. right. right. cbn. rewrite String.eqb_refl. reflexivity. }
  erewrite bind_Returned
    by (apply statement_ok; cbn [calls withStorage withReads]; rewrite Hc; exact F2).
  match goal with |- context [benchmarks ?d !! id] => destruct (benchmarks d !! id) end.
  - unfold storage.createPerformanceMetrics, statement.
    cbn [calls withStorage withReads]. rewrite Hc.
    destruct (fault E (S (S (S (calls w))))); eexists;
      cbn [journal withStorage withReads]; rewrite Hj, <- !app_assoc;
      (split; [reflexivity|]); cbn; rewrite String.eqb_refl; auto.
  - unfold ret. eexists. cbn [journal withStorage withReads].
    rewrite Hj, <- !app_assoc. split; [reflexivity|].
    cbn. rewrite String.eqb_refl. reflexivity.
Qed.

End StatusSequences.

(** X19. In every execution of [runBenchmark] the statuses set on its
    campaign by the updates that did not throw follow one of a few
    sequences. When it returns: running, completed; or failed alone, or
    running, failed, or running, completed, failed. When it throws, its
    write of failed having thrown: nothing, or running, or running,
    completed. When the profile is out of fuel: running. So completed is
    never set without running before it, no status is set twice, and
    nothing follows failed. *)
Theorem campaign_status_sequences fuel id url type duration E w :
  let r := runBenchmark fuel id url type duration E w in
  let written := statusWrites id (issued w r) in
  match r with
  | Returned _ _ =>
      written = ["running"; "completed"]%string \/
      written = ["failed"]%string \/
      written = ["running"; "failed"]%string \/
      written = ["running"; "completed"; "failed"]%string
  | Thrown _ =>
      written = [] \/ written = ["running"]%string \/
      written = ["running"; "completed"]%string
  | Starved _ => written = ["running"]%string
  end.
Proof.
  pose proof (body_writes fuel id url type duration E w) as Hb.
  cbv zeta in Hb. cbv zeta. unfold issued, runBenchmark, tryCatch.
  match goal with |- context [match ?b E w with _ => _ end] =>
    destruct (b E w) as [[] w1|w1|w1] end; destruct Hb as (es & Hj & Hes);
    cbn [worldOf].
  - rewrite Hj, drop_app_length. auto.
  - destruct (handler_ends id E w1) as [(w' & HH & Hj')|(w' & HH & Hj')];
      cbv zeta in HH; rewrite HH; cbn [worldOf]; rewrite Hj', Hj, <- app_assoc,
      drop_app_length, statusWrites_app; cbn; rewrite ?String.eqb_refl.
    + destruct Hes as [-> | [-> | ->]]; cbn; auto.
    + destruct Hes as [-> | [-> | ->]]; cbn; auto.
  - rewrite Hj, drop_app_length. exact Hes.
Qed.

(** *** What the calls of the engine depend on *)

Section Outcomes.

Lemma local_pure {A} (m : M A) :
  (forall E w, journal (worldOf (m E w)) = journal w /\ calls (worldOf (m E w)) = calls w) ->
  (forall E f w, m (answering f E) w = m E w) ->
  local m.
Proof.
  intros Hq Hf E w. exists []. destruct (Hq E w) as [Hj Hc].
  rewrite Hj, Hc, app_nil_r. cbn. split_and!; auto.
Qed.

Lemma local_ret {A} (a : A) : local (ret a).
Proof. apply local_pure; intros; [split|]; reflexivity. Qed.

Lemma local_throw {A} : local (@throw A).
Proof. apply local_pure; intros; [split|]; reflexivity. Qed.

Lemma local_starve {A} : local (@starve A).
Proof. apply local_pure; intros; [split|]; reflexivity. Qed.

Lemma local_dateNow : local dateNow.
Proof. apply local_pure; intros; [split|]; reflexivity. Qed.

Lemma local_fetch : local fetch.
Proof. apply local_pure; intros; [split|]; reflexivity. Qed.

Lemma local_pick : local pick.
Proof. apply local_pure; intros; [split|]; reflexivity. Qed.

Lemma local_await r : local (await r).
Proof. destruct r; [apply local_ret | apply local_throw]. Qed.

Lemma local_sleep ms : local (sleep ms).
Proof. apply local_ret. Qed.

Lemma local_console_error : local console_error.
Proof. apply local_ret. Qed.

Lemma local_if {A} (b : bool) (m1 m2 : M A) :
  local m1 -> local m2 -> local (if b then m1 else m2).
Proof. now destruct b. Qed.

Lemma local_statement {A} c effect (value : Storage -> A) :
  local (statement c effect value).
Proof.
  intros E w. unfold statement.
  exists [mkEntry c (fault E (calls w))].
  split_and!.
  - destruct (fault E (calls w)); reflexivity.
  - destruct (fault E (calls w)); cbn; lia.
  - reflexivity.
  - intros f Hf. cbn [fault answering]. rewrite (Hf (calls w)) by (cbn; lia). reflexivity.
Qed.

Lemma local_bind {A B} (m : M A) (k : A -> M B) :
  local m -> (forall a, local (k a)) -> local (bind m k).
Proof.
  intros Hm Hk E w. unfold bind.
  destruct (Hm E w) as (es & Hj & Hc & Ht & Hf).
  destruct (m E w) as [a w1|w1|w1] eqn:Hrun; cbn [worldOf] in *.
  - destruct (Hk a E w1) as (es' & Hj' & Hc' & Ht' & Hf').
    exists (es ++ es'). rewrite Hj', Hj, Hc', Hc, length_app, <- app_assoc.
    split_and!; [reflexivity | lia | |].
    + rewrite map_app, seq_app, map_app, Ht, Ht', Hc. reflexivity.
    + intros f Hagree. rewrite Hf by (intros; apply Hagree; lia).
      apply Hf'. intros; apply Hagree; lia.
  - exists es. split_and!; auto. intros f Hagree. now rewrite Hf.
  - exists es. split_and!; auto. intros f Hagree. now rewrite Hf.
Qed.

Lemma local_tryCatch {A} (body handler : M A) :
  local body -> local handler -> local (tryCatch body handler).
Proof.
  intros Hb Hh E w. unfold tryCatch.
  destruct (Hb E w) as (es & Hj & Hc & Ht & Hf).
  destruct (body E w) as [a w1|w1|w1] eqn:Hrun; cbn [worldOf] in *.
  - exists es. split_and!; auto. intros f Hagree. now rewrite Hf.
  - destruct (Hh E w1) as (es' & Hj' & Hc' & Ht' & Hf').
    exists (es ++ es'). rewrite Hj', Hj, Hc', Hc, length_app, <- app_assoc.
    split_and!; [reflexivity | lia | |].
    + rewrite map_app, seq_app, map_app, Ht, Ht', Hc. reflexivity.
    + intros f Hagree. rewrite Hf by (intros; apply Hagree; lia).
      apply Hf'. intros; apply Hagree; lia.
  - exists es. split_and!; auto. intros f Hagree. now rewrite Hf.
Qed.

Lemma local_createPerformanceMetrics m : local (storage.createPerformanceMetrics m).
Proof. apply local_statement. Qed.

Lemma local_createReliabilityMetrics m : local (storage.createReliabilityMetrics m).
Proof. apply local_statement. Qed.

Lemma local_updateBenchmark id data : local (storage.updateBenchmark id data).
Proof.
  unfold storage.updateBenchmark. apply local_if; [apply local_ret | apply local_statement].
Qed.

Lemma local_getBenchmarkById id : local (storage.getBenchmarkById id).
Proof. apply local_statement. Qed.

Ltac local :=
  repeat first
    [ apply local_ret | apply local_throw | apply local_starve
    | apply local_dateNow | apply local_fetch | apply local_pick
    | apply local_await | apply local_sleep | apply local_console_error
    | apply local_createPerformanceMetrics | apply local_createReliabilityMetrics
    | apply local_updateBenchmark | apply local_getBenchmarkById
    | assumption
    | apply local_bind; [|intros ?]
    | apply local_tryCatch
    | apply local_if ].













Import ReliabilityService.








End Outcomes.

Import BenchmarkService.

Section ReadingBack.





End ReadingBack.

Import ReliabilityService.



